(** * Tutor agent front-end (src/Tutor.py): a shallow embedding

    The Streamlit script is embedded as state-passing code over an explicit
    [World]: the secrets store, the process environment, the working
    directory, the [st.cache_resource] store, the session state and one
    trace of everything the script does to the outside (widgets drawn,
    agent constructions, remote calls, file deletions).

    Python exceptions are values of [exn]; a computation either returns or
    raises ([result]).  Pillow, phi and Streamlit are libraries, not part of
    the repository: each library call the script makes is given a small
    executable model next to its first use, with the behaviour it relies on.

    The script is translated twice.  The first translation is a run during
    which the browser asks for nothing; in the second, module
    [Interrupted], a stop or a rerun may be requested at any moment, and
    the [st.*] call that follows raises the script-control exception. *)

From Stdlib Require Import ZArith List Bool SpecFloat.
From Stdlib.Strings Require Import Byte.
From stdpp Require Import gmap strings list pretty.
Import ListNotations.

Open Scope Z_scope.

(* ===================================================================== *)
(** ** Exceptions and results *)
(* ===================================================================== *)

(** The exception classes the script can meet.  [StopException] and
    [RerunException] are Streamlit's script-control exceptions: the first
    is raised by [st.stop()], and either by an [st.*] call made while a
    stop or a rerun is requested; they derive from [BaseException], so
    [except Exception] does not catch them.  [StreamlitSecretNotFoundError]
    is a subclass of [FileNotFoundError], not of [KeyError].  [Exception]
    stands for any other error raised by the agent library (network,
    authentication, quota).  A [KeyError] carries its argument. *)
Inductive exn : Type :=
  | KeyError (arg : string)
  | ZeroDivisionError
  | OverflowError (msg : string)
  | ValueError (msg : string)
  | OSError (msg : string)
  | UnidentifiedImageError
  | FileNotFoundError (path : string)
  | StreamlitSecretNotFoundError (msg : string)
  | FileExistsError
  | AttributeError (msg : string)
  | Exception (msg : string)
  | StopException
  | RerunException.

(** [isinstance(e, Exception)] *)
Definition is_Exception (e : exn) : bool :=
  match e with
  | StopException | RerunException => false
  | _ => true
  end.

(** [isinstance(e, ScriptControlException)] *)
Definition is_control (e : exn) : bool :=
  match e with
  | StopException | RerunException => true
  | _ => false
  end.

(** [isinstance(e, KeyError)] *)
Definition is_KeyError (e : exn) : bool :=
  match e with
  | KeyError _ => true
  | _ => false
  end.

(** [type(e).__name__] *)
Definition exn_name (e : exn) : string :=
  match e with
  | KeyError _ => "KeyError"
  | ZeroDivisionError => "ZeroDivisionError"
  | OverflowError _ => "OverflowError"
  | ValueError _ => "ValueError"
  | OSError _ => "OSError"
  | UnidentifiedImageError => "UnidentifiedImageError"
  | FileNotFoundError _ => "FileNotFoundError"
  | StreamlitSecretNotFoundError _ => "StreamlitSecretNotFoundError"
  | FileExistsError => "FileExistsError"
  | AttributeError _ => "AttributeError"
  | Exception _ => "Exception"
  | StopException => "StopException"
  | RerunException => "RerunException"
  end.

(** [str(e)], as interpolated by the f-strings of the script.  A [KeyError]
    prints the repr of its argument (single quotes around it, for an
    argument that holds none). *)
Definition exn_str (e : exn) : string :=
  match e with
  | KeyError arg => "'" +:+ arg +:+ "'"
  | ZeroDivisionError => "division by zero"
  | OverflowError msg => msg
  | ValueError msg => msg
  | OSError msg => msg
  | UnidentifiedImageError => "cannot identify image file"
  | FileNotFoundError path =>
      "[Errno 2] No such file or directory: '" +:+ path +:+ "'"
  | StreamlitSecretNotFoundError msg => msg
  | FileExistsError => "[Errno 17] No usable temporary file name found"
  | AttributeError msg => msg
  | Exception msg => msg
  | StopException => ""
  | RerunException => ""
  end.

Definition newline : string := String (Ascii.ascii_of_nat 10) EmptyString.

(** [traceback.format_exc()] inside a handler for [e]; the stack frames are
    left out, the header and the final line are kept. *)
Definition format_exc (e : exn) : string :=
  "Traceback (most recent call last):" +:+ newline +:+
  exn_name e +:+ ": " +:+ exn_str e +:+ newline.

Inductive result (A : Type) : Type :=
  | Ok (a : A)
  | Raise (e : exn).
Arguments Ok {A} a.
Arguments Raise {A} e.

Definition result_bind {A B} (r : result A) (k : A -> result B) : result B :=
  match r with
  | Ok a => k a
  | Raise e => Raise e
  end.

(* ===================================================================== *)
(** ** Bytes, in-memory streams and the image codec *)
(* ===================================================================== *)

Abbreviation bytes := (list byte).

Definition byte_of_Z (z : Z) : byte :=
  match Byte.of_N (Z.to_N (z mod 256)) with
  | Some b => b
  | None => x00
  end.

Definition Z_of_byte (b : byte) : Z := Z.of_N (Byte.to_N b).

(** Big-endian 32-bit field, as in an image header. *)
Definition be32 (z : Z) : bytes :=
  [byte_of_Z (Z.shiftr z 24); byte_of_Z (Z.shiftr z 16);
   byte_of_Z (Z.shiftr z 8); byte_of_Z z].

Definition be32_value (b3 b2 b1 b0 : byte) : Z :=
  Z.lor (Z.shiftl (Z_of_byte b3) 24)
    (Z.lor (Z.shiftl (Z_of_byte b2) 16)
       (Z.lor (Z.shiftl (Z_of_byte b1) 8) (Z_of_byte b0))).

(** [io.BytesIO] (Streamlit's [UploadedFile] is a subclass): a buffer and a
    read position.  Reading moves the position; [getbuffer] does not look
    at it. *)
Record BytesIO : Type := mkBytesIO {
  buffer : bytes;
  position : nat
}.

Definition BytesIO_new (data : bytes) : BytesIO :=
  {| buffer := data; position := 0%nat |}.

Definition getbuffer (f : BytesIO) : bytes := buffer f.

Definition seek (pos : nat) (f : BytesIO) : BytesIO :=
  {| buffer := buffer f; position := pos |}.

(** [f.read(n)]: the next [n] bytes from the position, which advances. *)
Definition read (n : nat) (f : BytesIO) : bytes * BytesIO :=
  let chunk := take n (drop (position f) (buffer f)) in
  (chunk, {| buffer := buffer f; position := (position f + length chunk)%nat |}).

(** [f.read()]: everything that is left. *)
Definition read_all (f : BytesIO) : bytes * BytesIO :=
  read (length (buffer f)) f.

Inductive container : Type := JPEG | PNG.

(** The pixel layouts ([img.mode]) the model tells apart. *)
Inductive image_mode : Type := mode_L | mode_RGB | mode_RGBA | mode_CMYK.

(** A decoded [PIL.Image]: the container it was read from ([img.format],
    [None] for an image made by [resize]), its mode and its size.  Pixel
    values are not modelled. *)
Record Image : Type := mkImage {
  format : option container;
  mode : image_mode;
  width : Z;
  height : Z
}.

(** Magic numbers by which a container is recognised. *)
Definition magic (c : container) : bytes :=
  match c with
  | PNG => [x89; x50; x4e; x47; x0d; x0a; x1a; x0a]
  | JPEG => [xff; xd8; xff]
  end.

(** The bytes that close a complete file: the [IEND] chunk of a PNG, the
    end-of-image marker of a JPEG. *)
Definition trailer (c : container) : bytes :=
  match c with
  | PNG => [x00; x00; x00; x00; x49; x45; x4e; x44; xae; x42; x60; x82]
  | JPEG => [xff; xd9]
  end.

Definition mode_code (m : image_mode) : byte :=
  match m with
  | mode_L => x00
  | mode_RGB => x02
  | mode_RGBA => x06
  | mode_CMYK => x04
  end.

Definition mode_of_code (b : byte) : option image_mode :=
  match b with
  | x00 => Some mode_L
  | x02 => Some mode_RGB
  | x06 => Some mode_RGBA
  | x04 => Some mode_CMYK
  | _ => None
  end.

Definition mode_name (m : image_mode) : string :=
  match m with
  | mode_L => "L"
  | mode_RGB => "RGB"
  | mode_RGBA => "RGBA"
  | mode_CMYK => "CMYK"
  end.

Definition container_name (c : container) : string :=
  match c with
  | PNG => "PNG"
  | JPEG => "JPEG"
  end.

(** The modes a container can hold. *)
Definition holds (c : container) (m : image_mode) : bool :=
  match c, m with
  | PNG, mode_CMYK => false
  | JPEG, mode_RGBA => false
  | _, _ => true
  end.

(** Encoded form used by the model, standing in for the real containers:
    magic number, width and height as 32-bit big-endian fields and a mode
    byte; then the pixel payload and the trailer. *)
Definition header (c : container) (m : image_mode) (w h : Z) : bytes :=
  magic c ++ be32 w ++ be32 h ++ [mode_code m].

Definition header_length (c : container) : nat := (length (magic c) + 9)%nat.

(** A complete file with an empty pixel payload. *)
Definition encode (c : container) (m : image_mode) (w h : Z) : bytes :=
  header c m w h ++ trailer c.

Fixpoint starts_with (prefix data : bytes) : bool :=
  match prefix, data with
  | [], _ => true
  | p :: prefix', d :: data' => Byte.eqb p d && starts_with prefix' data'
  | _ :: _, [] => false
  end.

Definition ends_with (suffix data : bytes) : bool :=
  starts_with (reverse suffix) (reverse data).

Definition read_be32 (data : bytes) : option Z :=
  match data with
  | b3 :: b2 :: b1 :: b0 :: _ => Some (be32_value b3 b2 b1 b0)
  | _ => None
  end.

(** The header of [data] read as container [c].  As Pillow does, the
    decoder refuses a header whose width or height is not positive, or
    whose mode the container cannot hold: such a file is not identified. *)
Definition decode_as (c : container) (data : bytes) : option Image :=
  if starts_with (magic c) data then
    match read_be32 (drop (length (magic c)) data),
          read_be32 (drop (length (magic c) + 4) data),
          drop (length (magic c) + 8) data with
    | Some w, Some h, code :: _ =>
        match mode_of_code code with
        | Some m =>
            if (0 <? w) && (0 <? h) && holds c m
            then Some {| format := Some c; mode := m; width := w; height := h |}
            else None
        | None => None
        end
    | _, _, _ => None
    end
  else None.

Definition decode_header (data : bytes) : option Image :=
  match decode_as PNG data with
  | Some img => Some img
  | None => decode_as JPEG data
  end.

(** The container a byte string is recognised as, by its magic number. *)
Definition sniff (data : bytes) : option container :=
  if starts_with (magic PNG) data then Some PNG
  else if starts_with (magic JPEG) data then Some JPEG
  else None.

(** [Image.open(fp)]: rewinds [fp], picks the decoder by the first bytes
    and lets it read the header; raises [UnidentifiedImageError] when no
    decoder accepts the data.  The stream is left positioned after the
    header; the pixel data is not read yet. *)
Definition Image_open (fp : BytesIO) : result (Image * BytesIO) :=
  let '(prefix, fp1) := read 16 (seek 0 fp) in
  match sniff prefix with
  | Some c =>
      let '(head, fp2) := read (header_length c) (seek 0 fp1) in
      match decode_as c head with
      | Some img => Ok (img, fp2)
      | None => Raise UnidentifiedImageError
      end
  | None => Raise UnidentifiedImageError
  end.

(** Whether the file an image was opened from holds all its pixel data. *)
Definition pixel_data_complete (img : Image) (data : bytes) : bool :=
  match format img with
  | Some c => ends_with (trailer c) data
  | None => true
  end.

(** The largest C [int]. *)
Definition INT_MAX : Z := 2147483647.

(** [img.resize((xsize, ysize), resample)]: loads the pixel data (the
    stream is read to its end; a truncated file raises [OSError]), hands
    the size to the C resampler as two C ints ([OverflowError] beyond
    that), which refuses a side below 1.  The result keeps the mode. *)
Definition Image_resize (img : Image) (fp : BytesIO) (xsize ysize : Z)
  : result (Image * BytesIO) :=
  let '(_, fp1) := read_all fp in
  if negb (pixel_data_complete img (buffer fp))
  then Raise (OSError "image file is truncated")
  else if (INT_MAX <? xsize) || (INT_MAX <? ysize)
  then Raise (OverflowError "signed integer is greater than maximum")
  else if (xsize <? 1) || (ysize <? 1)
  then Raise (ValueError "height and width must be > 0")
  else Ok ({| format := None; mode := mode img;
              width := xsize; height := ysize |}, fp1).

(** [buf = BytesIO(); img.save(buf, format=c); buf.getvalue()]; a mode the
    container cannot hold raises [OSError]. *)
Definition Image_save (img : Image) (c : container) : result bytes :=
  if holds c (mode img)
  then Ok (encode c (mode img) (width img) (height img))
  else Raise (OSError ("cannot write mode " +:+ mode_name (mode img) +:+
                       " as " +:+ container_name c)).

(* ===================================================================== *)
(** ** Python numbers: true division, float product, [int()] *)
(* ===================================================================== *)

(** Python floats are IEEE binary64, round to nearest even. *)
Abbreviation float := spec_float.
Definition prec : Z := 53.
Definition emax : Z := 1024.

(** [float(n)]; exact for the sizes an image header can hold. *)
Definition float_of_int (n : Z) : float := binary_normalize prec emax n 0 false.

(** [a / b] on two ints. *)
Definition truediv (a b : Z) : result float :=
  if b =? 0 then Raise ZeroDivisionError
  else Ok (SFdiv prec emax (float_of_int a) (float_of_int b)).

(** [n * x] with [n] an int and [x] a float. *)
Definition int_mul_float (n : Z) (x : float) : float :=
  SFmul prec emax (float_of_int n) x.

(** [int(x)]: truncation toward zero. *)
Definition int_of_float (x : float) : result Z :=
  match x with
  | S754_zero _ => Ok 0
  | S754_finite s m e =>
      let a := if 0 <=? e then Z.pos m * 2 ^ e else Z.pos m / 2 ^ (- e) in
      Ok (if s then - a else a)
  | S754_infinity _ =>
      Raise (OverflowError "cannot convert float infinity to integer")
  | S754_nan => Raise (ValueError "cannot convert float NaN to integer")
  end.

(* ===================================================================== *)
(** ** [resize_image_for_display]  (Tutor.py, lines 47-57) *)
(* ===================================================================== *)

Definition MAX_IMAGE_WIDTH : Z := 300.

(** [new_height = int(MAX_IMAGE_WIDTH * (img.height / img.width))] *)
Definition new_height_of (img : Image) : result Z :=
  result_bind (truediv (height img) (width img)) (fun aspect_ratio =>
  int_of_float (int_mul_float MAX_IMAGE_WIDTH aspect_ratio)).

(** Returns the PNG bytes of the preview together with the state the
    caller's file object is left in. *)
Definition resize_image_for_display (image_file : BytesIO)
  : result (bytes * BytesIO) :=
  result_bind (Image_open image_file) (fun '(img, fp1) =>
  result_bind (new_height_of img) (fun new_height =>
  result_bind (Image_resize img fp1 MAX_IMAGE_WIDTH new_height) (fun '(img', fp2) =>
  result_bind (Image_save img' PNG) (fun png =>
  Ok (png, fp2))))).


(* ===================================================================== *)
(** ** The world the script runs in *)
(* ===================================================================== *)

(** [phi.agent.Agent]: what the constructor was given, and [agent_id], the
    identity of the object (the index of the construction that made it). *)
Record Agent : Type := mkAgent {
  agent_id : nat;
  model_id : string;
  system_prompt : string;
  instructions : string;
  tavily_api_key : option string;
  agent_markdown : bool
}.

(** The object returned by [agent.run]. *)
Record RunResponse : Type := mkRunResponse {
  content : string
}.

(** What [st.markdown] is handed: a string, or the response object itself
    (the text tab passes [response], the image path [response.content]). *)
Inductive markdown_body : Type :=
  | MdText (s : string)
  | MdResponse (r : RunResponse).

(** One remote call: the agent used, the task, the attached image paths
    with the bytes found at each path when the call is made, and the
    [markdown] keyword when given. *)
Record RunCall : Type := mkRunCall {
  run_agent : nat;
  run_message : string;
  run_images : list (string * option bytes);
  run_markdown : option bool
}.

(** Everything the script does to the outside, in order. *)
Inductive event : Type :=
  | st_title_ev (body : string)
  | st_write_ev (body : string)
  | st_error_ev (body : string)
  | st_warning_ev (body : string)
  | st_markdown_ev (body : markdown_body)
  | st_image_ev (image : bytes) (caption : string) (image_width : Z)
  | st_spinner_ev (text : string)
  | Agent_init_ev (attempt : nat)
  | Agent_run_ev (call : RunCall)
  | os_unlink_ev (path : string).

(** How the reasoning service answers a call. *)
Inductive remote_reply : Type :=
  | Reply (body : string)
  | Fail (msg : string).

Record World : Type := mkWorld {
  (** [st.secrets]: the entries found, and whether there is a secrets source
      at all (a [secrets.toml] or a secret directory); a store that has
      entries has one *)
  secrets : gmap string string;
  secrets_file : bool;
  (** [os.environ] *)
  environ : gmap string string;
  (** the files of the working directory, by path *)
  fs : gmap string bytes;
  (** the random names [tempfile] will draw, and how many were drawn *)
  random_names : nat -> string;
  names_drawn : nat;
  (** the value [st.cache_resource] holds for [get_agent], if any *)
  resource_cache : option (option Agent);
  (** [st.session_state.agent], if the key is set *)
  session_agent : option (option Agent);
  (** whether the n-th [Agent(...)] construction raises, and with what *)
  Agent_init_outcome : nat -> option string;
  (** what the service answers to the n-th [agent.run] *)
  Agent_run_outcome : nat -> remote_reply;
  trace : list event
}.

Definition set_environ (v : gmap string string) (w : World) : World :=
  mkWorld (secrets w) (secrets_file w) v (fs w) (random_names w) (names_drawn w)
    (resource_cache w) (session_agent w) (Agent_init_outcome w)
    (Agent_run_outcome w) (trace w).

Definition set_fs (v : gmap string bytes) (w : World) : World :=
  mkWorld (secrets w) (secrets_file w) (environ w) v (random_names w) (names_drawn w)
    (resource_cache w) (session_agent w) (Agent_init_outcome w)
    (Agent_run_outcome w) (trace w).

Definition set_names_drawn (v : nat) (w : World) : World :=
  mkWorld (secrets w) (secrets_file w) (environ w) (fs w) (random_names w) v
    (resource_cache w) (session_agent w) (Agent_init_outcome w)
    (Agent_run_outcome w) (trace w).

Definition set_resource_cache (v : option (option Agent)) (w : World) : World :=
  mkWorld (secrets w) (secrets_file w) (environ w) (fs w) (random_names w) (names_drawn w)
    v (session_agent w) (Agent_init_outcome w)
    (Agent_run_outcome w) (trace w).

Definition set_session_agent (v : option (option Agent)) (w : World) : World :=
  mkWorld (secrets w) (secrets_file w) (environ w) (fs w) (random_names w) (names_drawn w)
    (resource_cache w) v (Agent_init_outcome w)
    (Agent_run_outcome w) (trace w).

Definition emit (e : event) (w : World) : World :=
  mkWorld (secrets w) (secrets_file w) (environ w) (fs w) (random_names w) (names_drawn w)
    (resource_cache w) (session_agent w) (Agent_init_outcome w)
    (Agent_run_outcome w) (trace w ++ [e]).

Definition is_Agent_init (e : event) : bool :=
  match e with Agent_init_ev _ => true | _ => false end.

Definition is_Agent_run (e : event) : bool :=
  match e with Agent_run_ev _ => true | _ => false end.

Definition is_os_unlink (e : event) : bool :=
  match e with os_unlink_ev _ => true | _ => false end.

Definition is_st_image (e : event) : bool :=
  match e with st_image_ev _ _ _ => true | _ => false end.

Definition count (p : event -> bool) (t : list event) : nat :=
  length (List.filter p t).

(** Number of [Agent(...)] constructions started so far. *)
Definition constructions (w : World) : nat := count is_Agent_init (trace w).

(** Number of [agent.run] calls made so far. *)
Definition remote_calls (w : World) : nat := count is_Agent_run (trace w).

(* ===================================================================== *)
(** ** Computations: state passing with exceptions *)
(* ===================================================================== *)

Definition M (A : Type) : Type := World -> result A * World.

Definition ret {A} (a : A) : M A := fun w => (Ok a, w).

Definition raise {A} (e : exn) : M A := fun w => (Raise e, w).

Definition bind {A B} (m : M A) (k : A -> M B) : M B :=
  fun w =>
    match m w with
    | (Ok a, w') => k a w'
    | (Raise e, w') => (Raise e, w')
    end.

(** With these instances the script reads [x ← m; k] and [m;; k]. *)
#[global] Instance M_ret : MRet M := @ret.
#[global] Instance M_bind : MBind M := fun A B k m => bind m k.

(** A pure computation that may raise, run inside the world. *)
Definition lift {A} (r : result A) : M A := fun w => (r, w).

(** [try: body  except C as e: handler(e)], where [catches e] says whether
    [e] is an instance of [C]. *)
Definition try_except {A} (body : M A) (catches : exn -> bool)
    (handler : exn -> M A) : M A :=
  fun w =>
    match body w with
    | (Ok a, w') => (Ok a, w')
    | (Raise e, w') => if catches e then handler e w' else (Raise e, w')
    end.

Definition log (e : event) : M unit := fun w => (Ok tt, emit e w).

(** The [n] results of calling [m] [n] times in a row. *)
Fixpoint call_n {A} (n : nat) (m : M A) : M (list A) :=
  match n with
  | O => ret []
  | S n' => a ← m; rest ← call_n n' m; ret (a :: rest)
  end.

(* ===================================================================== *)
(** ** Library calls made by the script *)
(* ===================================================================== *)

(** Whether Streamlit finds any secrets source: a file, or entries (which
    come from one). *)
Definition has_secrets_source (w : World) : bool :=
  secrets_file w || negb (bool_decide (secrets w = ∅)).

Definition dquote : string := String (Ascii.ascii_of_nat 34) EmptyString.

(** The argument of the [KeyError] that [st.secrets] raises for a key it
    does not have (the advice after the key is Streamlit's, and changes
    with its version). *)
Definition st_secrets_no_key (key : string) : string :=
  "st.secrets has no key " +:+ dquote +:+ key +:+ dquote +:+
  ". Did you forget to add it to secrets.toml, mount it to secret directory, or the app settings on Streamlit Cloud? More info: https://docs.streamlit.io/deploy/streamlit-community-cloud/deploy-your-app/secrets-management".

(** [st.secrets[key]]: without any secrets source the lookup raises
    [StreamlitSecretNotFoundError] (the paths it lists are left out); with
    one, a key that is not there raises [KeyError]. *)
Definition secrets_getitem (key : string) : M string :=
  fun w =>
    match secrets w !! key with
    | Some v => (Ok v, w)
    | None =>
        if has_secrets_source w
        then (Raise (KeyError (st_secrets_no_key key)), w)
        else (Raise (StreamlitSecretNotFoundError "No secrets found."), w)
    end.

(** [os.environ[key] = value] *)
Definition environ_setitem (key value : string) : M unit :=
  fun w => (Ok tt, set_environ (<[key := value]> (environ w)) w).

(** [os.getenv(key)] *)
Definition os_getenv (key : string) : M (option string) :=
  fun w => (Ok (environ w !! key), w).

Definition st_title (body : string) : M unit := log (st_title_ev body).
Definition st_write (body : string) : M unit := log (st_write_ev body).
Definition st_error (body : string) : M unit := log (st_error_ev body).
Definition st_warning (body : string) : M unit := log (st_warning_ev body).
Definition st_markdown (body : markdown_body) : M unit := log (st_markdown_ev body).
Definition st_image (image : bytes) (caption : string) (image_width : Z) : M unit :=
  log (st_image_ev image caption image_width).

(** [st.stop()] ends the script run by raising the control exception. *)
Definition st_stop {A} : M A := raise StopException.

(** [with st.spinner(text): body] *)
Definition st_spinner {A} (text : string) (body : M A) : M A :=
  log (st_spinner_ev text);; body.

(** [Agent(model=Gemini(id=...), system_prompt=..., instructions=...,
    tools=[TavilyTools(api_key=...)], markdown=...)].  Whether this
    construction raises is the world's choice. *)
Definition Agent_new (model prompt instr : string) (api_key : option string)
    (markdown : bool) : M Agent :=
  fun w =>
    let n := constructions w in
    let w' := emit (Agent_init_ev n) w in
    match Agent_init_outcome w n with
    | Some msg => (Raise (Exception msg), w')
    | None =>
        (Ok {| agent_id := n; model_id := model; system_prompt := prompt;
               instructions := instr; tavily_api_key := api_key;
               agent_markdown := markdown |}, w')
    end.

(** [agent.run(message, images=..., markdown=...)]: the call is made, and
    the service either answers or the call raises. *)
Definition Agent_run (agent : Agent) (message : string) (images : list string)
    (markdown : option bool) : M RunResponse :=
  fun w =>
    let call := {| run_agent := agent_id agent;
                   run_message := message;
                   run_images := List.map (fun p => (p, fs w !! p)) images;
                   run_markdown := markdown |} in
    let w' := emit (Agent_run_ev call) w in
    match Agent_run_outcome w (remote_calls w) with
    | Reply body => (Ok {| content := body |}, w')
    | Fail msg => (Raise (Exception msg), w')
    end.

(** [@st.cache_resource] on a function without arguments: the first value
    the function returns is stored and handed out from then on; a call
    that raises stores nothing.  (The replay, on a hit, of elements the
    function drew is not modelled.) *)
Definition cache_resource (f : M (option Agent)) : M (option Agent) :=
  fun w =>
    match resource_cache w with
    | Some v => (Ok v, w)
    | None =>
        match f w with
        | (Ok v, w') => (Ok v, set_resource_cache (Some v) w')
        | (Raise e, w') => (Raise e, w')
        end
    end.

(** [tempfile]: at most [TMP_MAX] random names are tried; the first that
    is not taken is created, empty. *)
Definition TMP_MAX : nat := Eval cbv in (100 * 100)%nat.

Definition temp_name (w : World) (suffix : string) : string :=
  ("tmp" +:+ random_names w (names_drawn w)) +:+ suffix.

Fixpoint mkstemp (attempts : nat) (suffix : string) : M string :=
  fun w =>
    match attempts with
    | O => (Raise FileExistsError, w)
    | S attempts' =>
        let name := temp_name w suffix in
        let w1 := set_names_drawn (S (names_drawn w)) w in
        match fs w !! name with
        | Some _ => mkstemp attempts' suffix w1
        | None => (Ok name, set_fs (<[name := []]> (fs w1)) w1)
        end
    end.

(** [NamedTemporaryFile(dir='.', suffix=suffix, delete=False)]; the name is
    given relative to the working directory. *)
Definition NamedTemporaryFile (suffix : string) : M string :=
  mkstemp TMP_MAX suffix.

(** [f.write(data)] on the file just created, closed on leaving [with]. *)
Definition file_write (name : string) (data : bytes) : M unit :=
  fun w =>
    (Ok tt, set_fs (<[name := default [] (fs w !! name) ++ data]> (fs w)) w).

(** [os.unlink(path)] *)
Definition os_unlink (path : string) : M unit :=
  fun w =>
    let w' := emit (os_unlink_ev path) w in
    match fs w !! path with
    | Some _ => (Ok tt, set_fs (delete path (fs w')) w')
    | None => (Raise (FileNotFoundError path), w')
    end.

(* ===================================================================== *)
(** ** The script  (Tutor.py) *)
(* ===================================================================== *)

Definition SYSTEM_PROMPTS : string :=
  "You are an AI Tutor specializing in generating concise explanations and real-world examples for educational topics. Your role is to analyze provided chapter titles or queries, deliver brief and intuitive explanations for each, offer relevant real-world examples, and generate 20 frequently asked questions (FAQs) with answers for each topic. Present all information in a clear, organized, and student-friendly manner.Pls use Markdown format".

Definition INSTRUCTIONS : string :=
  "
* For each provided chapter title:
    1. **Explanation**:
        - Provide a concise and intuitive explanation of the topic, ensuring clarity and accessibility for students.
    2. **Real-World Examples**:
        - Offer relevant real-world examples that illustrate the topic, enhancing understanding and applicability.
    3. **Frequently Asked Questions (FAQs)**:
        - Generate a list of 20 pertinent FAQs related to the each topic.
        - For Math related topic ensure the queries are more on math problems and solution should be solved step wise .(eg.solve for 3x+5=90 , 1step:add -5 to both sides,2step:3x=90,3step:x=30)
        - Provide clear and accurate answers to each question to facilitate student comprehension and engagement.
*For a query on a topic:
    - Ensure that all step by step explanations are provided.
    - Give more such examples to make the concepts clear
    - Provide a tailor  responses to students in an intuitive way. 
*Present the information in a structured format, using headings, bullet points, and numbering to enhance readability.
* Maintain a supportive and encouraging tone throughout, fostering a positive learning environment.".

(** Lines 39-44: the keys are copied from the secrets into the environment;
    a missing key is reported and the script stops. *)
Definition secrets_setup : M unit :=
  try_except
    (tavily ← secrets_getitem "TAVILY_KEY";
     environ_setitem "TAVILY_API_KEY" tavily;;
     gemini ← secrets_getitem "GEMINI_KEY";
     environ_setitem "GOOGLE_API_KEY" gemini)
    is_KeyError
    (fun e =>
       st_error ("API Key Missing: " +:+ exn_str e +:+
                 ".  Please set your TAVILY_KEY and GEMINI_KEY in secrets.toml");;
       st_stop).

(** Lines 60-73, the function under the decorator. *)
Definition get_agent_body : M (option Agent) :=
  try_except
    (api_key ← os_getenv "TAVILY_API_KEY";
     agent ← Agent_new "gemini-2.0-flash-exp" SYSTEM_PROMPTS INSTRUCTIONS
               api_key true;
     mret (Some agent))
    is_Exception
    (fun e =>
       st_error ("Error creating agent: " +:+ exn_str e);;
       st_error (format_exc e);;
       mret None).

(** Lines 59-73. *)
Definition get_agent : M (option Agent) := cache_resource get_agent_body.

(** Lines 76-91. *)
Definition analyze_image (image_path : string) : M unit :=
  agent ← get_agent;
  match agent with
  | None => mret tt
  | Some agent =>
      try_except
        (st_spinner "Analyzing image and generating content..."
           (response ← Agent_run agent
              "Analyze the given image to extract chapter names and generate educational content."
              [image_path] None;
            st_markdown (MdText (content response))))
        is_Exception
        (fun e =>
           st_error ("An error occurred during image analysis: " +:+ exn_str e);;
           st_error (format_exc e))
  end.

(** Lines 93-97. *)
Definition save_uploaded_file (uploaded_file : BytesIO) : M string :=
  name ← NamedTemporaryFile ".jpg";
  file_write name (getbuffer uploaded_file);;
  mret name.

(** What the widgets of one script run hand back: the text area, the three
    buttons, the uploader and the camera. *)
Record Inputs : Type := mkInputs {
  user_input : string;
  get_answer : bool;
  uploaded_file : option bytes;
  analyze_upload : bool;
  camera_photo : option bytes;
  analyze_camera : bool
}.

(** Truth value of a Python [str]. *)
Definition truthy (s : string) : bool :=
  match s with
  | EmptyString => false
  | String _ _ => true
  end.

(** [st.session_state.agent.run(message, markdown=True)] *)
Definition session_agent_run (message : string) : M RunResponse :=
  fun w =>
    match session_agent w with
    | None =>
        (Raise (AttributeError "st.session_state has no attribute 'agent'"), w)
    | Some None =>
        (Raise (AttributeError "'NoneType' object has no attribute 'run'"), w)
    | Some (Some agent) => Agent_run agent message [] (Some true) w
    end.

(** Lines 110-122, the body of [with tab1:]. *)
Definition tab1 (inp : Inputs) : M unit :=
  if get_answer inp then
    if truthy (user_input inp) then
      try_except
        (st_spinner "Searching for info..."
           (response ← session_agent_run (user_input inp);
            st_markdown (MdResponse response)))
        is_Exception
        (fun e =>
           st_error ("An error occurred: " +:+ exn_str e);;
           st_error (format_exc e))
    else st_warning "Please enter a topic."
  else mret tt.

(** Lines 124-132 and 135-143: the bodies of [with tab2:] and [with tab3:]
    are the same code, up to the widget that supplies the file, the
    caption and the button. *)
Definition image_tab (file : option bytes) (caption : string) (clicked : bool)
  : M unit :=
  match file with
  | Some data =>
      let uploaded_file := BytesIO_new data in
      '(resized_image, uploaded_file) ← lift (resize_image_for_display uploaded_file);
      st_image resized_image caption MAX_IMAGE_WIDTH;;
      if clicked then
        temp_path ← save_uploaded_file uploaded_file;
        analyze_image temp_path;;
        os_unlink temp_path
      else mret tt
  | None => mret tt
  end.

Definition tab2 (inp : Inputs) : M unit :=
  image_tab (uploaded_file inp) "Uploaded Image" (analyze_upload inp).

Definition tab3 (inp : Inputs) : M unit :=
  image_tab (camera_photo inp) "Captured Photo" (analyze_camera inp).

(** ['agent' in st.session_state] *)
Definition session_state_has_agent : M bool :=
  fun w => (Ok (bool_decide (is_Some (session_agent w))), w).

(** [st.session_state.agent = value] *)
Definition session_state_set_agent (value : option Agent) : M unit :=
  fun w => (Ok tt, set_session_agent (Some value) w).

(** Lines 104-105. *)
Definition init_session_agent : M unit :=
  present ← session_state_has_agent;
  if negb present then
    agent ← get_agent;
    session_state_set_agent agent
  else mret tt.

(** Lines 99-143. *)
Definition main (inp : Inputs) : M unit :=
  st_title "📘 AI-Powered Tutor Agent";;
  st_write "Upload an image containing chapter names to receive explanations, real-world examples, and FAQs for each topic.";;
  init_session_agent;;
  tab1 inp;;
  tab2 inp;;
  tab3 inp.

(** One run of the script, top to bottom: the start-up of lines 39-44,
    then [main] (lines 146-148; [st.set_page_config] only configures the
    page and draws nothing). *)
Definition script (inp : Inputs) : M unit :=
  secrets_setup;;
  main inp.

(* ===================================================================== *)
(** ** Script control: a stop or a rerun requested during a run *)
(* ===================================================================== *)

(** What the browser can ask for while the script runs: the stop button,
    or a rerun (a widget was touched). *)
Inductive request : Type := StopRequest | RerunRequest.

(** The exception that is raised in the script for a request. *)
Definition control_exception (r : request) : exn :=
  match r with
  | StopRequest => StopException
  | RerunRequest => RerunException
  end.

(** The script once more, with what the definitions above leave out: every
    [st.*] call that sends an element first handles a waiting request, by
    raising its exception from inside the call, before the element is
    sent.  Everything that is no [st.*] call is as above.  The definitions
    above are the runs during which no request arrives
    ([Interrupted_script_calm] below). *)
Module Interrupted.
Section Interrupted.

(** The request, if any, that is waiting when the world is [w]. *)
Variable pending : World -> option request.

Definition yield_point : M unit :=
  fun w =>
    match pending w with
    | Some r => (Raise (control_exception r), w)
    | None => (Ok tt, w)
    end.

Definition st_title (body : string) : M unit :=
  yield_point;; st_title body.

Definition st_write (body : string) : M unit :=
  yield_point;; st_write body.

Definition st_error (body : string) : M unit :=
  yield_point;; st_error body.

Definition st_warning (body : string) : M unit :=
  yield_point;; st_warning body.

Definition st_markdown (body : markdown_body) : M unit :=
  yield_point;; st_markdown body.

Definition st_image (image : bytes) (caption : string) (image_width : Z)
  : M unit :=
  yield_point;; st_image image caption image_width.

Definition st_spinner {A} (text : string) (body : M A) : M A :=
  yield_point;; st_spinner text body.

(** Lines 39-44. *)
Definition secrets_setup : M unit :=
  try_except
    (tavily ← secrets_getitem "TAVILY_KEY";
     environ_setitem "TAVILY_API_KEY" tavily;;
     gemini ← secrets_getitem "GEMINI_KEY";
     environ_setitem "GOOGLE_API_KEY" gemini)
    is_KeyError
    (fun e =>
       st_error ("API Key Missing: " +:+ exn_str e +:+
                 ".  Please set your TAVILY_KEY and GEMINI_KEY in secrets.toml");;
       st_stop).

(** Lines 60-73, the function under the decorator. *)
Definition get_agent_body : M (option Agent) :=
  try_except
    (api_key ← os_getenv "TAVILY_API_KEY";
     agent ← Agent_new "gemini-2.0-flash-exp" SYSTEM_PROMPTS INSTRUCTIONS
               api_key true;
     mret (Some agent))
    is_Exception
    (fun e =>
       st_error ("Error creating agent: " +:+ exn_str e);;
       st_error (format_exc e);;
       mret None).

(** Lines 59-73. *)
Definition get_agent : M (option Agent) := cache_resource get_agent_body.

(** Lines 76-91. *)
Definition analyze_image (image_path : string) : M unit :=
  agent ← get_agent;
  match agent with
  | None => mret tt
  | Some agent =>
      try_except
        (st_spinner "Analyzing image and generating content..."
           (response ← Agent_run agent
              "Analyze the given image to extract chapter names and generate educational content."
              [image_path] None;
            st_markdown (MdText (content response))))
        is_Exception
        (fun e =>
           st_error ("An error occurred during image analysis: " +:+ exn_str e);;
           st_error (format_exc e))
  end.

(** Lines 110-122, the body of [with tab1:]. *)
Definition tab1 (inp : Inputs) : M unit :=
  if get_answer inp then
    if truthy (user_input inp) then
      try_except
        (st_spinner "Searching for info..."
           (response ← session_agent_run (user_input inp);
            st_markdown (MdResponse response)))
        is_Exception
        (fun e =>
           st_error ("An error occurred: " +:+ exn_str e);;
           st_error (format_exc e))
    else st_warning "Please enter a topic."
  else mret tt.

(** Lines 124-132 and 135-143. *)
Definition image_tab (file : option bytes) (caption : string) (clicked : bool)
  : M unit :=
  match file with
  | Some data =>
      let uploaded_file := BytesIO_new data in
      '(resized_image, uploaded_file) ← lift (resize_image_for_display uploaded_file);
      st_image resized_image caption MAX_IMAGE_WIDTH;;
      if clicked then
        temp_path ← save_uploaded_file uploaded_file;
        analyze_image temp_path;;
        os_unlink temp_path
      else mret tt
  | None => mret tt
  end.

Definition tab2 (inp : Inputs) : M unit :=
  image_tab (uploaded_file inp) "Uploaded Image" (analyze_upload inp).

Definition tab3 (inp : Inputs) : M unit :=
  image_tab (camera_photo inp) "Captured Photo" (analyze_camera inp).

(** Lines 104-105. *)
Definition init_session_agent : M unit :=
  present ← session_state_has_agent;
  if negb present then
    agent ← get_agent;
    session_state_set_agent agent
  else mret tt.

(** Lines 99-143. *)
Definition main (inp : Inputs) : M unit :=
  st_title "📘 AI-Powered Tutor Agent";;
  st_write "Upload an image containing chapter names to receive explanations, real-world examples, and FAQs for each topic.";;
  init_session_agent;;
  tab1 inp;;
  tab2 inp;;
  tab3 inp.

Definition script (inp : Inputs) : M unit :=
  secrets_setup;;
  main inp.

End Interrupted.
End Interrupted.

(** No request arrives, whatever the world. *)
Definition calm (pending : World -> option request) : Prop :=
  forall w, pending w = None.

Definition no_request (w : World) : option request := None.

(** A rerun is requested while the first remote call of the process is
    under way: it is waiting from the moment that call has been made. *)
Definition rerun_during_call (w : World) : option request :=
  if (1 <=? remote_calls w)%nat then Some RerunRequest else None.

(* ===================================================================== *)
(** ** What the specification says, where it differs from the code *)
(* ===================================================================== *)

(** The specification's height: [round(maxWidth * originalHeight /
    originalWidth)], the exact quotient rounded to the nearest integer
    (a tie goes up; none of the sizes used below is a tie). *)
Definition spec_new_height (maxWidth originalWidth originalHeight : Z) : Z :=
  (2 * maxWidth * originalHeight + originalWidth) / (2 * originalWidth).

(** Whether the height the code computes for a [w]x[h] source is the exact
    quotient [300 * h / w] rounded down, or one less. *)
Definition height_near_quotient (w h : Z) : bool :=
  match new_height_of {| format := None; mode := mode_RGB;
                         width := w; height := h |} with
  | Ok k => (MAX_IMAGE_WIDTH * h / w - 1 <=? k) && (k <=? MAX_IMAGE_WIDTH * h / w)
  | Raise _ => false
  end.

(** All sizes [w]x[h] with [1 <= w, h <= n]. *)
Definition sizes_up_to (n : nat) : list (Z * Z) :=
  let side := List.map (fun i => Z.of_nat (S i)) (seq 0 n) in
  w ← side; h ← side; [(w, h)].

(* ===================================================================== *)
(** ** Names for what the script leaves behind *)
(* ===================================================================== *)

(** The error the start-up draws for a missing key (line 43): the f-string
    interpolates the [KeyError] that [st.secrets] raised. *)
Definition missing_key_message (key : string) : string :=
  "API Key Missing: " +:+ exn_str (KeyError (st_secrets_no_key key)) +:+
  ".  Please set your TAVILY_KEY and GEMINI_KEY in secrets.toml".

(** The agent a successful construction in world [w] returns (lines 63-69). *)
Definition agent_built (w : World) : Agent :=
  {| agent_id := constructions w;
     model_id := "gemini-2.0-flash-exp";
     system_prompt := SYSTEM_PROMPTS;
     instructions := INSTRUCTIONS;
     tavily_api_key := environ w !! "TAVILY_API_KEY";
     agent_markdown := true |}.

(** The world after a construction that raised [Exception(msg)] and was
    reported (lines 70-72). *)
Definition init_failure_reported (msg : string) (w : World) : World :=
  emit (st_error_ev (format_exc (Exception msg)))
    (emit (st_error_ev ("Error creating agent: " +:+ msg))
       (emit (Agent_init_ev (constructions w)) w)).

(** The remote call [analyze_image] makes for the file at [path] (lines
    84-87), with the bytes the file holds at that moment. *)
Definition image_call (agent : Agent) (path : string) (held : option bytes)
  : RunCall :=
  {| run_agent := agent_id agent;
     run_message :=
       "Analyze the given image to extract chapter names and generate educational content.";
     run_images := [(path, held)];
     run_markdown := None |}.

(** Every remote call among [evs] has exactly this attachment. *)
Definition calls_attach (path : string) (held : option bytes)
    (evs : list event) : Prop :=
  Forall (fun e => forall call, e = Agent_run_ev call ->
                     run_images call = [(path, held)]) evs.

(* ===================================================================== *)
(** ** Concrete sources, worlds and inputs *)
(* ===================================================================== *)

(** A complete RGB source of the given container and size, with some pixel
    payload. *)
Definition source (c : container) (w h : Z) : bytes :=
  header c mode_RGB w h ++ [x2a; x2a; x2a] ++ trailer c.

(** A process that has just started: nothing cached, an empty working
    directory, random names "0", "1", ... *)
Definition initial_world (keys : gmap string string)
    (init : nat -> option string) (remote : nat -> remote_reply) : World :=
  {| secrets := keys; secrets_file := true; environ := ∅; fs := ∅;
     random_names := fun n => pretty n; names_drawn := 0%nat;
     resource_cache := None; session_agent := None;
     Agent_init_outcome := init; Agent_run_outcome := remote;
     trace := [] |}.

(** A process started where no [secrets.toml] and no secret directory
    exists. *)
Definition no_secrets_world : World :=
  {| secrets := ∅; secrets_file := false; environ := ∅; fs := ∅;
     random_names := fun n => pretty n; names_drawn := 0%nat;
     resource_cache := None; session_agent := None;
     Agent_init_outcome := fun _ => None;
     Agent_run_outcome := fun _ => Reply "# Chapter 1";
     trace := [] |}.

Definition both_keys : gmap string string :=
  {[ "TAVILY_KEY" := "tvly-0"; "GEMINI_KEY" := "gem-0" ]}.

(** Every construction succeeds, every remote call is answered. *)
Definition healthy_world : World :=
  initial_world both_keys (fun _ => None) (fun _ => Reply "# Chapter 1").

(** The first construction fails, later ones would succeed. *)
Definition flaky_init_world : World :=
  initial_world both_keys
    (fun n => match n with O => Some "invalid API key" | S _ => None end)
    (fun _ => Reply "# Chapter 1").

(** An image source is uploaded and its analysis is asked for. *)
Definition upload_query (data : bytes) : Inputs :=
  {| user_input := ""; get_answer := false;
     uploaded_file := Some data; analyze_upload := true;
     camera_photo := None; analyze_camera := false |}.

(** Constructions succeed, every remote call raises. *)
Definition failing_remote_world : World :=
  initial_world both_keys (fun _ => None) (fun _ => Fail "quota exceeded").

(** The world a script run leaves behind. *)
Definition after (m : M unit) (w : World) : World := snd (m w).

Definition no_input : Inputs :=
  {| user_input := ""; get_answer := false;
     uploaded_file := None; analyze_upload := false;
     camera_photo := None; analyze_camera := false |}.

Definition text_query (rawText : string) : Inputs :=
  {| user_input := rawText; get_answer := true;
     uploaded_file := None; analyze_upload := false;
     camera_photo := None; analyze_camera := false |}.

(** A session whose agent is built and cached, facing a service that
    raises on every call. *)
Definition ready_failing_world : World :=
  after (main no_input) failing_remote_world.

(** The same, with a service that answers. *)
Definition ready_world : World := after (main no_input) healthy_world.

(** An image request during which no stop or rerun is asked for, against a
    service that raises. *)
Definition uninterrupted_request : result unit * World :=
  Interrupted.image_tab no_request (Some (source JPEG 900 600))
    "Uploaded Image" true ready_failing_world.

(** The same request, with a rerun asked for during the remote call ... *)
Definition interrupted_failing_request : result unit * World :=
  Interrupted.image_tab rerun_during_call (Some (source JPEG 900 600))
    "Uploaded Image" true ready_failing_world.

(** ... and likewise against a service that answers. *)
Definition interrupted_request : result unit * World :=
  Interrupted.image_tab rerun_during_call (Some (source JPEG 900 600))
    "Uploaded Image" true ready_world.

(** The preview of a 900x600 source, and the state its file object is left
    in after the preview was made. *)
Definition preview_900x600 : bytes := encode PNG mode_RGB 300 200.

Definition read_through (data : bytes) : BytesIO :=
  {| buffer := data; position := length data |}.

(** A directory that holds one temporary file. *)
Definition one_file_world : World :=
  set_fs {[ "tmp0.jpg" := source JPEG 900 600 ]} healthy_world.

(** The world after one call of [get_agent]. *)
Definition after_get_agent (w : World) : World := snd (get_agent w).

(* ===================================================================== *)
(** ** Frames: what a computation keeps and what it may raise *)
(* ===================================================================== *)

(** [m] relates every world to the world it leaves, whether it returns or
    raises. *)
Definition keeps {A} (R : relation World) (m : M A) : Prop :=
  forall w, R w (snd (m w)).

(** Every exception [m] lets out satisfies [P]. *)
Definition raises_only {A} (P : exn -> Prop) (m : M A) : Prop :=
  forall w e w', m w = (Raise e, w') -> P e.

Definition never_raises {A} (m : M A) : Prop := raises_only (fun _ => False) m.

(** [m] lets out script-control exceptions only. *)
Definition controlled {A} (m : M A) : Prop :=
  raises_only (fun e => is_control e = true) m.

(** The working directory is as it was. *)
Definition same_files : relation World := fun w w' => fs w' = fs w.

(** The environment is as it was. *)
Definition same_environ : relation World := fun w w' => environ w' = environ w.

(** The session's agent entry is as it was. *)
Definition same_session : relation World :=
  fun w w' => session_agent w' = session_agent w.

(** What the world will answer does not change. *)
Definition same_outcomes : relation World :=
  fun w w' => Agent_init_outcome w' = Agent_init_outcome w /\
              Agent_run_outcome w' = Agent_run_outcome w.

(** The cache either is untouched, with no construction started, or went
    from empty to filled, with exactly one construction started. *)
Definition cache_grows : relation World :=
  fun w w' =>
    (resource_cache w' = resource_cache w /\
     constructions w' = constructions w) \/
    (resource_cache w = None /\ is_Some (resource_cache w') /\
     constructions w' = S (constructions w)).

(** No file is created or deleted, no temporary name is drawn and no remote
    call is made. *)
Definition quiet : relation World :=
  fun w w' =>
    fs w' = fs w /\ names_drawn w' = names_drawn w /\
    remote_calls w' = remote_calls w /\
    count is_os_unlink (trace w') = count is_os_unlink (trace w).

(** No preview is drawn, no file is created or deleted and no temporary
    name is drawn. *)
Definition no_image_work : relation World :=
  fun w w' =>
    fs w' = fs w /\ names_drawn w' = names_drawn w /\
    count is_st_image (trace w') = count is_st_image (trace w) /\
    count is_os_unlink (trace w') = count is_os_unlink (trace w).

(** A session entry, once set, is still there. *)
Definition session_sticks : relation World :=
  fun w w' => forall v, session_agent w = Some v -> session_agent w' = Some v.

(** The world after the script has run once for each of [inps], in order
    (the reruns of one process). *)
Definition run_all (inps : list Inputs) (w : World) : World :=
  fold_left (fun w inp => after (script inp) w) inps w.

Definition is_st_error (e : event) : bool :=
  match e with st_error_ev _ => true | _ => false end.

(** The two errors a handler of the script draws for [e], after [prefix]
    (lines 71-72, 90-91, 119-120). *)
Definition error_report (prefix : string) (e : exn) : list event :=
  [st_error_ev (prefix +:+ exn_str e); st_error_ev (format_exc e)].

(** The remote call the text tab makes (line 116). *)
Definition text_call (agent : Agent) (message : string) : RunCall :=
  {| run_agent := agent_id agent;
     run_message := message;
     run_images := [];
     run_markdown := Some true |}.

(** An upload is previewed, no button is pressed. *)
Definition preview_only (data : bytes) : Inputs :=
  {| user_input := "Photosynthesis"; get_answer := false;
     uploaded_file := Some data; analyze_upload := false;
     camera_photo := None; analyze_camera := false |}.

(** The service raises on the first call and answers from then on. *)
Definition recovering_world : World :=
  after (main no_input)
    (initial_world both_keys (fun _ => None)
       (fun n => match n with
                 | O => Fail "quota exceeded"
                 | S _ => Reply "# Chapter 1"
                 end)).

(** A process whose first construction failed and was cached. *)
Definition poisoned_world : World := after (main no_input) flaky_init_world.

(* ===================================================================== *)
(** ** Stepping through computations *)
(* ===================================================================== *)

Lemma bind_Ok {A B} (m : M A) (k : A -> M B) w a w' :
  m w = (Ok a, w') -> (m ≫= k) w = k a w'.
Proof. intros H. unfold mbind, M_bind, bind. now rewrite H. Qed.

Lemma bind_Raise {A B} (m : M A) (k : A -> M B) w e w' :
  m w = (Raise e, w') -> (m ≫= k) w = (Raise e, w').
Proof. intros H. unfold mbind, M_bind, bind. now rewrite H. Qed.

Ltac unfold_M :=
  repeat progress
    (unfold st_spinner, st_title, st_write, st_error, st_warning,
       st_markdown, st_image, st_stop, try_except, lift, raise, log in *;
     unfold mbind, mret, M_bind, M_ret, bind, ret in *).

(* ===================================================================== *)
(** ** The preview: [resize_image_for_display] *)
(* ===================================================================== *)

(** [Image.open] rewinds the stream: only the buffer matters. *)
Lemma Image_open_seek (fp : BytesIO) (pos : nat) :
  Image_open (seek pos fp) = Image_open fp.
Proof. reflexivity. Qed.

(** Neither opening nor resizing touches the buffer of the caller's file. *)
Lemma Image_open_buffer fp img fp' :
  Image_open fp = Ok (img, fp') -> buffer fp' = buffer fp.
Proof.
  unfold Image_open. simpl.
  destruct (sniff _); [|discriminate]. simpl.
  destruct (decode_as _ _); [|discriminate].
  intros [= <- <-]. reflexivity.
Qed.

Lemma Image_resize_buffer img fp xsize ysize img' fp' :
  Image_resize img fp xsize ysize = Ok (img', fp') -> buffer fp' = buffer fp.
Proof.
  unfold Image_resize. simpl.
  destruct (negb _); [discriminate|].
  destruct (_ || _); [discriminate|].
  destruct (_ || _); [discriminate|].
  intros [= <- <-]. reflexivity.
Qed.

Lemma resize_image_for_display_buffer image_file out fp' :
  resize_image_for_display image_file = Ok (out, fp') ->
  buffer fp' = buffer image_file.
Proof.
  unfold resize_image_for_display, result_bind.
  destruct (Image_open image_file) as [[img fp1]|] eqn:Hopen; [|discriminate].
  destruct (new_height_of img); [|discriminate].
  destruct (Image_resize _ _ _ _) as [[img' fp2]|] eqn:Hres; [|discriminate].
  destruct (Image_save _ _); [|discriminate].
  intros [= <- <-].
  apply Image_resize_buffer in Hres. apply Image_open_buffer in Hopen.
  congruence.
Qed.

(** What a decoder accepts has a positive size and a mode its container
    holds. *)
Lemma decode_as_Some c data img :
  decode_as c data = Some img ->
  format img = Some c /\ 0 < width img /\ 0 < height img /\
  holds c (mode img) = true.
Proof.
  unfold decode_as.
  destruct (starts_with _ _); [|discriminate].
  destruct (read_be32 _) as [w|]; [|discriminate].
  destruct (read_be32 _) as [h|]; [|discriminate].
  destruct (drop _ data) as [|code rest]; [discriminate|].
  destruct (mode_of_code code) as [m|]; [|discriminate].
  destruct (0 <? w) eqn:Hw; [|discriminate].
  destruct (0 <? h) eqn:Hh; [|discriminate].
  destruct (holds c m) eqn:Hm; [|discriminate].
  intros [= <-]. simpl.
  apply Z.ltb_lt in Hw, Hh. now repeat split.
Qed.

Lemma Image_open_sized fp img fp' :
  Image_open fp = Ok (img, fp') -> 0 < width img /\ 0 < height img.
Proof.
  unfold Image_open. simpl.
  destruct (sniff _) as [c|]; [|discriminate]. simpl.
  destruct (decode_as c _) as [img0|] eqn:Hd; [|discriminate].
  intros [= <- <-]. apply decode_as_Some in Hd. tauto.
Qed.

(** A resize that returns was given a size within the C ints and at least
    1x1, and keeps the mode. *)
Lemma Image_resize_Ok img fp xsize ysize img' fp' :
  Image_resize img fp xsize ysize = Ok (img', fp') ->
  1 <= xsize <= INT_MAX /\ 1 <= ysize <= INT_MAX /\
  img' = {| format := None; mode := mode img; width := xsize; height := ysize |}.
Proof.
  unfold Image_resize. simpl.
  destruct (negb _); [discriminate|].
  destruct ((INT_MAX <? xsize) || (INT_MAX <? ysize)) eqn:Hbig; [discriminate|].
  destruct ((xsize <? 1) || (ysize <? 1)) eqn:Hsmall; [discriminate|].
  intros [= <- <-].
  apply orb_false_iff in Hbig as [Hx Hy]. apply orb_false_iff in Hsmall as [Hx' Hy'].
  apply Z.ltb_ge in Hx, Hy, Hx', Hy'. repeat split; lia.
Qed.

(** *** Round trip of the 32-bit fields *)

Lemma Z_of_byte_of_Z z : Z_of_byte (byte_of_Z z) = z mod 256.
Proof.
  unfold Z_of_byte, byte_of_Z.
  assert (Hb : 0 <= z mod 256 < 256) by (apply Z.mod_pos_bound; lia).
  destruct (Byte.of_N (Z.to_N (z mod 256))) as [b|] eqn:E.
  - apply Byte.to_of_N in E. rewrite E. apply Z2N.id. lia.
  - apply Byte.of_N_None_iff in E. lia.
Qed.

Lemma be32_value_be32 z :
  0 <= z < 2 ^ 32 ->
  be32_value (byte_of_Z (Z.shiftr z 24)) (byte_of_Z (Z.shiftr z 16))
    (byte_of_Z (Z.shiftr z 8)) (byte_of_Z z) = z.
Proof.
  intros Hz. unfold be32_value. rewrite !Z_of_byte_of_Z.
  change 256 with (2 ^ 8).
  apply Z.bits_inj'. intros n Hn.
  rewrite !Z.lor_spec, !Z.shiftl_spec by lia.
  destruct (Z_lt_le_dec n 8) as [H8|H8].
  { rewrite (Z.testbit_neg_r _ (n - 24)), (Z.testbit_neg_r _ (n - 16)),
      (Z.testbit_neg_r _ (n - 8)) by lia.
    simpl. apply Z.mod_pow2_bits_low. lia. }
  rewrite (Z.mod_pow2_bits_high z 8 n) by lia. rewrite orb_false_r.
  destruct (Z_lt_le_dec n 16) as [H16|H16].
  { rewrite (Z.testbit_neg_r _ (n - 24)), (Z.testbit_neg_r _ (n - 16)) by lia.
    simpl. rewrite Z.mod_pow2_bits_low, Z.shiftr_spec by lia.
    f_equal. lia. }
  rewrite (Z.mod_pow2_bits_high _ 8 (n - 8)) by lia. rewrite orb_false_r.
  destruct (Z_lt_le_dec n 24) as [H24|H24].
  { rewrite (Z.testbit_neg_r _ (n - 24)) by lia.
    simpl. rewrite Z.mod_pow2_bits_low, Z.shiftr_spec by lia.
    f_equal. lia. }
  rewrite (Z.mod_pow2_bits_high _ 8 (n - 16)) by lia. rewrite orb_false_r.
  destruct (Z_lt_le_dec n 32) as [H32|H32].
  { rewrite Z.mod_pow2_bits_low, Z.shiftr_spec by lia. f_equal. lia. }
  rewrite (Z.mod_pow2_bits_high _ 8 (n - 24)) by lia.
  symmetry. rewrite <- (Z.mod_small z (2 ^ 32)) by lia.
  apply Z.mod_pow2_bits_high. lia.
Qed.

Lemma read_be32_be32 z rest :
  0 <= z < 2 ^ 32 -> read_be32 (be32 z ++ rest) = Some z.
Proof. intros Hz. simpl. now rewrite be32_value_be32. Qed.

Lemma mode_of_code_code m : mode_of_code (mode_code m) = Some m.
Proof. now destruct m. Qed.

(** What the encoder writes for PNG, the decoder reads back. *)
Lemma decode_header_encode_PNG m w h :
  0 < w < 2 ^ 32 -> 0 < h < 2 ^ 32 -> holds PNG m = true ->
  decode_header (encode PNG m w h)
  = Some {| format := Some PNG; mode := m; width := w; height := h |}.
Proof.
  intros Hw Hh Hm. unfold decode_header, decode_as, encode, header.
  change (starts_with (magic PNG) (magic PNG ++ _)) with true.
  cbv iota.
  change (drop (length (magic PNG)) (magic PNG ++ ?x)) with x.
  replace (drop (length (magic PNG)) ((magic PNG ++ be32 w ++ be32 h ++ [mode_code m]) ++ trailer PNG))
    with (be32 w ++ (be32 h ++ [mode_code m] ++ trailer PNG)) by reflexivity.
  replace (drop (length (magic PNG) + 4) ((magic PNG ++ be32 w ++ be32 h ++ [mode_code m]) ++ trailer PNG))
    with (be32 h ++ ([mode_code m] ++ trailer PNG)) by reflexivity.
  replace (drop (length (magic PNG) + 8) ((magic PNG ++ be32 w ++ be32 h ++ [mode_code m]) ++ trailer PNG))
    with (mode_code m :: trailer PNG) by reflexivity.
  rewrite !read_be32_be32 by lia.
  rewrite mode_of_code_code, Hm.
  destruct (0 <? w) eqn:E1; [|apply Z.ltb_ge in E1; lia].
  destruct (0 <? h) eqn:E2; [|apply Z.ltb_ge in E2; lia].
  reflexivity.
Qed.

(** ... and so does [Image.open] on a stream of them. *)
Lemma Image_open_encode_PNG m w h :
  0 < w < 2 ^ 32 -> 0 < h < 2 ^ 32 -> holds PNG m = true ->
  exists fp,
    Image_open (BytesIO_new (encode PNG m w h))
    = Ok ({| format := Some PNG; mode := m; width := w; height := h |}, fp).
Proof.
  intros Hw Hh Hm. unfold Image_open.
  change (read 16 (seek 0 (BytesIO_new (encode PNG m w h))))
    with (magic PNG ++ be32 w ++ be32 h,
          {| buffer := encode PNG m w h; position := 16%nat |}).
  cbv iota beta.
  change (sniff (magic PNG ++ be32 w ++ be32 h)) with (Some PNG).
  cbv iota beta.
  change (read (header_length PNG)
            (seek 0 {| buffer := encode PNG m w h; position := 16%nat |}))
    with (header PNG m w h,
          {| buffer := encode PNG m w h; position := 17%nat |}).
  cbv iota beta.
  assert (Hd : decode_as PNG (header PNG m w h)
               = Some {| format := Some PNG; mode := m; width := w; height := h |}).
  { unfold decode_as, header.
    change (starts_with (magic PNG) (magic PNG ++ _)) with true.
    cbv iota.
    replace (drop (length (magic PNG)) (magic PNG ++ be32 w ++ be32 h ++ [mode_code m]))
      with (be32 w ++ (be32 h ++ [mode_code m])) by reflexivity.
    replace (drop (length (magic PNG) + 4) (magic PNG ++ be32 w ++ be32 h ++ [mode_code m]))
      with (be32 h ++ [mode_code m]) by reflexivity.
    replace (drop (length (magic PNG) + 8) (magic PNG ++ be32 w ++ be32 h ++ [mode_code m]))
      with [mode_code m] by reflexivity.
    rewrite !read_be32_be32 by lia.
    rewrite mode_of_code_code, Hm.
    destruct (0 <? w) eqn:E1; [|apply Z.ltb_ge in E1; lia].
    destruct (0 <? h) eqn:E2; [|apply Z.ltb_ge in E2; lia].
    reflexivity. }
  rewrite Hd. eexists. reflexivity.
Qed.

Lemma ends_with_encode c m w h : ends_with (trailer c) (encode c m w h) = true.
Proof. destruct c, m; reflexivity. Qed.

(** What a returning call of [resize_image_for_display] went through. *)
Lemma resize_image_for_display_Ok image_file out fp' :
  resize_image_for_display image_file = Ok (out, fp') ->
  exists img fp new_height,
    Image_open image_file = Ok (img, fp) /\
    0 < width img /\ 0 < height img /\
    int_of_float
      (int_mul_float MAX_IMAGE_WIDTH
         (SFdiv prec emax (float_of_int (height img))
            (float_of_int (width img)))) = Ok new_height /\
    1 <= new_height <= INT_MAX /\
    holds PNG (mode img) = true /\
    out = encode PNG (mode img) MAX_IMAGE_WIDTH new_height.
Proof.
  unfold resize_image_for_display, result_bind.
  destruct (Image_open image_file) as [[img fp1]|] eqn:Hopen; [|discriminate].
  destruct (Image_open_sized _ _ _ Hopen) as [Hw Hh].
  unfold new_height_of, truediv.
  destruct (width img =? 0) eqn:E; [apply Z.eqb_eq in E; lia|]. simpl.
  destruct (int_of_float _) as [new_height|] eqn:Hint; [|discriminate].
  destruct (Image_resize _ _ _ _) as [[img' fp2]|] eqn:Hres; [|discriminate].
  apply Image_resize_Ok in Hres as (_ & Hrange & ->).
  unfold Image_save. cbn [mode width height format].
  destruct (holds PNG (mode img)) eqn:Hm; [|discriminate].
  intros [= <- <-]. exists img, fp1, new_height. now repeat split.
Qed.

(** C5: a source whose header declares width 0 is refused when it is
    opened, whatever its container, mode and height: the call raises
    [UnidentifiedImageError] on line 51 and never reaches the division, and
    the image tab that asked for the preview gets that exception.  On no
    input at all does [resize_image_for_display] raise
    [ZeroDivisionError]. *)
Theorem resize_zero_width_fails_fast (c : container) (m : image_mode)
    (h : Z) (rest : bytes) :
  resize_image_for_display (BytesIO_new (header c m 0 h ++ rest))
    = Raise UnidentifiedImageError /\
  (forall caption clicked w,
     image_tab (Some (header c m 0 h ++ rest)) caption clicked w
     = (Raise UnidentifiedImageError, w)) /\
  (forall image_file,
     resize_image_for_display image_file <> Raise ZeroDivisionError).
Proof.
  assert (Hres : resize_image_for_display (BytesIO_new (header c m 0 h ++ rest))
                 = Raise UnidentifiedImageError)
    by (destruct c, m; reflexivity).
  split; [exact Hres|]. split.
  - intros caption clicked w. unfold image_tab.
    apply bind_Raise. unfold lift. now rewrite Hres.
  - intros image_file. unfold resize_image_for_display, result_bind.
    destruct (Image_open image_file) as [[img fp1]|e] eqn:Hopen.
    + destruct (Image_open_sized _ _ _ Hopen) as [Hw _].
      unfold new_height_of, truediv.
      destruct (width img =? 0) eqn:E; [apply Z.eqb_eq in E; lia|]. simpl.
      destruct (int_of_float _) as [k|e] eqn:Hint.
      * unfold Image_resize, Image_save. simpl.
        repeat (match goal with
                | |- context [if ?b then _ else _] => destruct b
                end; simpl; try discriminate).
      * unfold int_of_float in Hint.
        destruct (int_mul_float _ _); try discriminate;
          injection Hint as <-; discriminate.
    + unfold Image_open in Hopen. simpl in Hopen.
      destruct (sniff _); [|injection Hopen as <-; discriminate].
      simpl in Hopen.
      destruct (decode_as _ _); [discriminate|].
      injection Hopen as <-. discriminate.
Qed.

(** C6, as the code computes it: whenever [resize_image_for_display]
    returns, the source had a positive width and the preview decodes as a
    PNG of width [MAX_IMAGE_WIDTH] whose height is
    [int(MAX_IMAGE_WIDTH * (height / width))]: the quotient and the
    product are binary64 operations and [int] truncates toward zero; that
    height lies between 1 and the largest C int.  A 900x600 source gives
    300x200, from either container. *)
Theorem resize_image_for_display_size (data out : bytes) (fp' : BytesIO)
    (Hreturns : resize_image_for_display (BytesIO_new data) = Ok (out, fp')) :
  (exists img fp new_height,
     Image_open (BytesIO_new data) = Ok (img, fp) /\
     0 < width img /\
     int_of_float
       (int_mul_float MAX_IMAGE_WIDTH
          (SFdiv prec emax (float_of_int (height img))
             (float_of_int (width img)))) = Ok new_height /\
     1 <= new_height <= INT_MAX /\
     decode_header out
     = Some {| format := Some PNG; mode := mode img;
               width := MAX_IMAGE_WIDTH; height := new_height |}) /\
  (forall c, exists out900 fp900,
     resize_image_for_display (BytesIO_new (source c 900 600))
       = Ok (out900, fp900) /\
     decode_header out900
     = Some {| format := Some PNG; mode := mode_RGB;
               width := 300; height := 200 |}).
Proof.
  split.
  - apply resize_image_for_display_Ok in Hreturns
      as (img & fp & new_height & Hopen & Hw & _ & Hint & Hrange & Hm & ->).
    exists img, fp, new_height.
    split; [exact Hopen|]. split; [exact Hw|]. split; [exact Hint|].
    split; [exact Hrange|].
    apply decode_header_encode_PNG; [split; reflexivity| |exact Hm].
    unfold INT_MAX in Hrange. lia.
  - intros c. destruct c; do 2 eexists; split; vm_compute; reflexivity.
Qed.

Lemma resize_image_for_display_size_witness :
  (exists img fp new_height,
     Image_open (BytesIO_new (source JPEG 1000 9)) = Ok (img, fp) /\
     0 < width img /\
     int_of_float
       (int_mul_float MAX_IMAGE_WIDTH
          (SFdiv prec emax (float_of_int (height img))
             (float_of_int (width img)))) = Ok new_height /\
     1 <= new_height <= INT_MAX /\
     decode_header (encode PNG mode_RGB 300 2)
     = Some {| format := Some PNG; mode := mode img;
               width := MAX_IMAGE_WIDTH; height := new_height |}) /\
  (forall c, exists out900 fp900,
     resize_image_for_display (BytesIO_new (source c 900 600))
       = Ok (out900, fp900) /\
     decode_header out900
     = Some {| format := Some PNG; mode := mode_RGB;
               width := 300; height := 200 |}).
Proof.
  apply (resize_image_for_display_size (source JPEG 1000 9)
           (encode PNG mode_RGB 300 2) (read_through (source JPEG 1000 9))).
  vm_compute. reflexivity.
Defined.

(** C6, as the specification states it, fails: a 1000x9 source has positive
    width and the rounded height is 3, yet the preview is 300x2. *)
Lemma resize_rounding_counterexample :
  exists img fp out fp',
    Image_open (BytesIO_new (source JPEG 1000 9)) = Ok (img, fp) /\
    0 < width img /\
    spec_new_height MAX_IMAGE_WIDTH (width img) (height img) = 3 /\
    resize_image_for_display (BytesIO_new (source JPEG 1000 9)) = Ok (out, fp') /\
    decode_header out
    = Some {| format := Some PNG; mode := mode_RGB; width := 300; height := 2 |}.
Proof.
  do 4 eexists. split; [reflexivity|].
  split; [reflexivity|]. split; [reflexivity|].
  split; vm_compute; reflexivity.
Qed.

(** The binary64 product can also fall just below an exact integer
    quotient: a 15x11 source is previewed at 300x219, not 300x220. *)
Lemma resize_15x11 :
  exists out fp',
    resize_image_for_display (BytesIO_new (source PNG 15 11)) = Ok (out, fp') /\
    decode_header out
    = Some {| format := Some PNG; mode := mode_RGB; width := 300; height := 219 |} /\
    300 * 11 / 15 = 220.
Proof. do 2 eexists. repeat split; vm_compute; reflexivity. Qed.

(** Sources on which the call raises instead of returning: a size beyond
    the C ints, a side that truncates to 0, a file cut short, and a mode
    PNG cannot hold. *)
Lemma resize_image_for_display_raises :
  resize_image_for_display (BytesIO_new (source PNG 1 8000000))
    = Raise (OverflowError "signed integer is greater than maximum") /\
  resize_image_for_display (BytesIO_new (source PNG 1000 1))
    = Raise (ValueError "height and width must be > 0") /\
  resize_image_for_display (BytesIO_new (header JPEG mode_RGB 900 600))
    = Raise (OSError "image file is truncated") /\
  resize_image_for_display (BytesIO_new (encode JPEG mode_CMYK 900 600))
    = Raise (OSError "cannot write mode CMYK as PNG").
Proof. repeat split; vm_compute; reflexivity. Qed.

(** On every size up to 48x48 the computed height is defined and lies
    within one below the exact quotient rounded down: truncation, with the
    binary64 product sometimes falling short of an integer. *)
Lemma new_height_small_sizes :
  forallb (fun '(w, h) => height_near_quotient w h) (sizes_up_to 48) = true.
Proof. vm_compute. reflexivity. Qed.

(* ===================================================================== *)
(** ** Temporary files: [save_uploaded_file] and [os.unlink] *)
(* ===================================================================== *)

Lemma mkstemp_Ok attempts suffix w name w' :
  mkstemp attempts suffix w = (Ok name, w') ->
  fs w !! name = None /\
  (exists stem, name = stem +:+ suffix) /\
  exists drawn, w' = set_fs (<[name := []]> (fs w)) (set_names_drawn drawn w).
Proof.
  revert w. induction attempts as [|attempts IH]; intros w; simpl.
  - discriminate.
  - destruct (fs w !! temp_name w suffix) eqn:Hfree.
    + intros H. apply IH in H. exact H.
    + intros [= <- <-]. split; [exact Hfree|]. split.
      * exists ("tmp" +:+ random_names w (names_drawn w)). reflexivity.
      * eexists. reflexivity.
Qed.

Lemma mkstemp_free attempts suffix w :
  fs w !! temp_name w suffix = None ->
  mkstemp (S attempts) suffix w
  = (Ok (temp_name w suffix),
     set_fs (<[temp_name w suffix := []]> (fs w))
       (set_names_drawn (S (names_drawn w)) w)).
Proof. intros H. simpl. now rewrite H. Qed.

(** What a successful save leaves behind: one new file, holding the whole
    buffer of the file object whatever its read position, under a name
    that was free and ends in the suffix. *)
Lemma save_uploaded_file_Ok uploaded_file w path w' :
  save_uploaded_file uploaded_file w = (Ok path, w') ->
  fs w !! path = None /\
  (exists stem, path = stem +:+ ".jpg") /\
  exists drawn,
    w' = set_fs (<[path := getbuffer uploaded_file]> (fs w))
           (set_names_drawn drawn w).
Proof.
  unfold save_uploaded_file, NamedTemporaryFile.
  unfold mbind, M_bind, bind.
  destruct (mkstemp TMP_MAX ".jpg" w) as [[name|e] w1] eqn:Hmk; [|discriminate].
  apply mkstemp_Ok in Hmk as (Hfree & Hstem & drawn & ->).
  unfold file_write, mret, M_ret, ret. simpl.
  intros [= <- <-]. split; [exact Hfree|]. split; [exact Hstem|].
  exists drawn. rewrite lookup_insert_eq. simpl.
  unfold set_fs. simpl. now rewrite insert_insert_eq.
Qed.

(** The save succeeds as soon as the first name drawn is free. *)
Lemma save_uploaded_file_free uploaded_file w :
  fs w !! temp_name w ".jpg" = None ->
  save_uploaded_file uploaded_file w
  = (Ok (temp_name w ".jpg"),
     set_fs (<[temp_name w ".jpg" := getbuffer uploaded_file]> (fs w))
       (set_names_drawn (S (names_drawn w)) w)).
Proof.
  intros Hfree. unfold save_uploaded_file, NamedTemporaryFile.
  replace TMP_MAX with (S (Nat.pred TMP_MAX)) by reflexivity.
  erewrite bind_Ok by (apply mkstemp_free; exact Hfree).
  unfold file_write, mbind, M_bind, bind, mret, M_ret, ret. simpl.
  rewrite lookup_insert_eq. simpl.
  unfold set_fs. simpl. now rewrite insert_insert_eq.
Qed.

Lemma os_unlink_existing path w content :
  fs w !! path = Some content ->
  os_unlink path w
  = (Ok tt, set_fs (delete path (fs w)) (emit (os_unlink_ev path) w)).
Proof. intros H. unfold os_unlink. now rewrite H. Qed.

Lemma os_unlink_missing path w :
  fs w !! path = None ->
  os_unlink path w = (Raise (FileNotFoundError path), emit (os_unlink_ev path) w).
Proof. intros H. unfold os_unlink. now rewrite H. Qed.

(** C7, as the code behaves: the release is a bare [os.unlink].  On an
    existing path it deletes the file; a second release of the same path
    then raises [FileNotFoundError], as does the release of any path that
    does not exist; a release that raises leaves the directory as it was. *)
Theorem os_unlink_twice_raises (path : string) (w : World) (content : bytes)
    (Hexists : fs w !! path = Some content) :
  (exists w1 w2,
     os_unlink path w = (Ok tt, w1) /\
     fs w1 !! path = None /\
     os_unlink path w1 = (Raise (FileNotFoundError path), w2) /\
     fs w2 = fs w1) /\
  (forall w0, fs w0 !! path = None ->
     exists w0',
       os_unlink path w0 = (Raise (FileNotFoundError path), w0') /\
       fs w0' = fs w0).
Proof.
  split.
  - do 2 eexists. split; [apply (os_unlink_existing _ _ _ Hexists)|].
    assert (Hgone : fs (set_fs (delete path (fs w)) (emit (os_unlink_ev path) w))
                      !! path = None) by (simpl; apply lookup_delete_eq).
    split; [exact Hgone|]. split; [apply (os_unlink_missing _ _ Hgone)|].
    reflexivity.
  - intros w0 Hmissing. eexists.
    split; [apply (os_unlink_missing _ _ Hmissing)|]. reflexivity.
Qed.

Lemma os_unlink_twice_raises_witness :
  (exists w1 w2,
     os_unlink "tmp0.jpg" one_file_world = (Ok tt, w1) /\
     fs w1 !! "tmp0.jpg" = None /\
     os_unlink "tmp0.jpg" w1 = (Raise (FileNotFoundError "tmp0.jpg"), w2) /\
     fs w2 = fs w1) /\
  (forall w0, fs w0 !! "tmp0.jpg" = None ->
     exists w0',
       os_unlink "tmp0.jpg" w0 = (Raise (FileNotFoundError "tmp0.jpg"), w0') /\
       fs w0' = fs w0).
Proof.
  apply (os_unlink_twice_raises "tmp0.jpg" one_file_world
           (source JPEG 900 600)).
  reflexivity.
Defined.

(** C7, as the specification states it, fails: releasing a path that does
    not exist raises, and so does the second of two releases. *)
Lemma os_unlink_idempotent_counterexample :
  fs healthy_world !! "tmp0.jpg" = None /\
  fst (os_unlink "tmp0.jpg" healthy_world)
    = Raise (FileNotFoundError "tmp0.jpg") /\
  fst (os_unlink "tmp0.jpg" one_file_world) = Ok tt /\
  fst (os_unlink "tmp0.jpg" (after (os_unlink "tmp0.jpg") one_file_world))
    = Raise (FileNotFoundError "tmp0.jpg").
Proof. repeat split; vm_compute; reflexivity. Qed.

(** C10: whatever the container of the source, the preview bytes that
    [resize_image_for_display] returns are a complete PNG file, not merely
    bytes that begin with the PNG signature: [Image.open] accepts them as a
    PNG of width [MAX_IMAGE_WIDTH] and positive height whose pixel data is
    all there, and they are exactly what the PNG encoder writes for that
    image.  The file that [save_uploaded_file] creates is named with the
    suffix [.jpg] and holds the uploaded bytes as they are, whatever their
    container. *)
Theorem preview_png_artifact_jpg (image_file uploaded_file : BytesIO)
    (out : bytes) (fp' : BytesIO) (w w' : World) (path : string)
    (Hresize : resize_image_for_display image_file = Ok (out, fp'))
    (Hsave : save_uploaded_file uploaded_file w = (Ok path, w')) :
  (sniff out = Some PNG /\
   exists img' fp'',
     Image_open (BytesIO_new out) = Ok (img', fp'') /\
     format img' = Some PNG /\
     width img' = MAX_IMAGE_WIDTH /\ 1 <= height img' /\
     pixel_data_complete img' out = true /\
     Image_save img' PNG = Ok out) /\
  (exists stem, path = stem +:+ ".jpg") /\
  fs w' !! path = Some (getbuffer uploaded_file).
Proof.
  split.
  - apply resize_image_for_display_Ok in Hresize
      as (img & fp & new_height & _ & _ & _ & _ & Hrange & Hm & ->).
    split; [reflexivity|].
    destruct (Image_open_encode_PNG (mode img) MAX_IMAGE_WIDTH new_height)
      as [fp'' Hopen];
      [split; reflexivity|unfold INT_MAX in Hrange; lia|exact Hm|].
    eexists _, fp''. split; [exact Hopen|]. cbn [format width height mode].
    split; [reflexivity|]. split; [reflexivity|]. split; [lia|].
    split; [apply ends_with_encode|].
    unfold Image_save. cbn [format width height mode]. now rewrite Hm.
  - apply save_uploaded_file_Ok in Hsave as (_ & Hstem & drawn & ->).
    split; [exact Hstem|]. simpl. apply lookup_insert_eq.
Qed.

Lemma preview_png_artifact_jpg_witness :
  (sniff (encode PNG mode_RGB 300 200) = Some PNG /\
   exists img' fp'',
     Image_open (BytesIO_new (encode PNG mode_RGB 300 200)) = Ok (img', fp'') /\
     format img' = Some PNG /\
     width img' = MAX_IMAGE_WIDTH /\ 1 <= height img' /\
     pixel_data_complete img' (encode PNG mode_RGB 300 200) = true /\
     Image_save img' PNG = Ok (encode PNG mode_RGB 300 200)) /\
  (exists stem, "tmp0.jpg" = stem +:+ ".jpg") /\
  fs (snd (save_uploaded_file (BytesIO_new (source PNG 900 600)) healthy_world))
    !! "tmp0.jpg"
  = Some (getbuffer (BytesIO_new (source PNG 900 600))).
Proof.
  apply (preview_png_artifact_jpg
           (BytesIO_new (source JPEG 900 600))
           (BytesIO_new (source PNG 900 600))
           (encode PNG mode_RGB 300 200)
           (read_through (source JPEG 900 600))
           healthy_world).
  - vm_compute. reflexivity.
  - vm_compute. reflexivity.
Defined.

(** [Image.open] tells a PNG file from its bare signature: the eight
    signature bytes alone are sniffed as PNG and refused. *)
Lemma bare_signature_is_no_image :
  sniff (magic PNG) = Some PNG /\
  Image_open (BytesIO_new (magic PNG)) = Raise UnidentifiedImageError.
Proof. split; reflexivity. Qed.

(* ===================================================================== *)
(** ** Start-up: the two keys *)
(* ===================================================================== *)

Lemma has_secrets_source_nonempty w key v :
  secrets w !! key = Some v -> has_secrets_source w = true.
Proof.
  intros H. unfold has_secrets_source.
  rewrite bool_decide_eq_false_2; [apply orb_true_r|].
  intros E. rewrite E, lookup_empty in H. discriminate.
Qed.

Lemma no_secrets_source_empty w key :
  has_secrets_source w = false -> secrets w !! key = None.
Proof.
  unfold has_secrets_source. intros H.
  apply orb_false_iff in H as [_ H]. apply negb_false_iff in H.
  apply bool_decide_eq_true_1 in H. rewrite H. apply lookup_empty.
Qed.

Lemma secrets_setup_no_tavily w :
  has_secrets_source w = true ->
  secrets w !! "TAVILY_KEY" = None ->
  secrets_setup w
  = (Raise StopException, emit (st_error_ev (missing_key_message "TAVILY_KEY")) w).
Proof.
  intros Hs H. unfold secrets_setup, secrets_getitem. unfold_M.
  rewrite H, Hs. reflexivity.
Qed.

Lemma secrets_setup_no_gemini w tavily :
  secrets w !! "TAVILY_KEY" = Some tavily ->
  secrets w !! "GEMINI_KEY" = None ->
  secrets_setup w
  = (Raise StopException,
     emit (st_error_ev (missing_key_message "GEMINI_KEY"))
       (set_environ (<["TAVILY_API_KEY" := tavily]> (environ w)) w)).
Proof.
  intros H1 H2.
  pose proof (has_secrets_source_nonempty _ _ _ H1) as Hs.
  unfold secrets_setup, secrets_getitem, environ_setitem. unfold_M.
  rewrite H1. simpl. rewrite H2.
  change (has_secrets_source (set_environ _ w)) with (has_secrets_source w).
  rewrite Hs. reflexivity.
Qed.

(** Without a secrets source the lookup raises an exception that is no
    [KeyError]: the handler of line 42 does not apply. *)
Lemma secrets_setup_no_source w :
  has_secrets_source w = false ->
  secrets_setup w
  = (Raise (StreamlitSecretNotFoundError "No secrets found."), w).
Proof.
  intros Hs. unfold secrets_setup, secrets_getitem. unfold_M.
  rewrite (no_secrets_source_empty _ "TAVILY_KEY" Hs), Hs. reflexivity.
Qed.




(* ===================================================================== *)
(** ** The cached agent: [get_agent] *)
(* ===================================================================== *)

Lemma count_app p (t1 t2 : list event) :
  count p (t1 ++ t2) = (count p t1 + count p t2)%nat.
Proof. unfold count. now rewrite List.filter_app, length_app. Qed.

Lemma count_snoc p (t : list event) e :
  count p (t ++ [e]) = (count p t + if p e then 1 else 0)%nat.
Proof. rewrite count_app. unfold count. simpl. now destruct (p e). Qed.

Lemma get_agent_hit w v :
  resource_cache w = Some v -> get_agent w = (Ok v, w).
Proof. intros H. unfold get_agent, cache_resource. now rewrite H. Qed.

(** The agent the construction numbered [constructions w] returns. *)
Lemma get_agent_body_Ok w :
  Agent_init_outcome w (constructions w) = None ->
  get_agent_body w
  = (Ok (Some (agent_built w)), emit (Agent_init_ev (constructions w)) w).
Proof.
  intros H. unfold get_agent_body, os_getenv, Agent_new. unfold_M.
  rewrite H. reflexivity.
Qed.

Lemma get_agent_body_failed w msg :
  Agent_init_outcome w (constructions w) = Some msg ->
  get_agent_body w = (Ok None, init_failure_reported msg w).
Proof.
  intros H. unfold get_agent_body, os_getenv, Agent_new. unfold_M.
  rewrite H. reflexivity.
Qed.

Lemma get_agent_miss_Ok w :
  resource_cache w = None ->
  Agent_init_outcome w (constructions w) = None ->
  get_agent w
  = (Ok (Some (agent_built w)),
     set_resource_cache (Some (Some (agent_built w)))
       (emit (Agent_init_ev (constructions w)) w)).
Proof.
  intros Hc Ho. unfold get_agent, cache_resource.
  now rewrite Hc, (get_agent_body_Ok _ Ho).
Qed.

Lemma get_agent_miss_failed w msg :
  resource_cache w = None ->
  Agent_init_outcome w (constructions w) = Some msg ->
  get_agent w
  = (Ok None, set_resource_cache (Some None) (init_failure_reported msg w)).
Proof.
  intros Hc Ho. unfold get_agent, cache_resource.
  now rewrite Hc, (get_agent_body_failed _ _ Ho).
Qed.

(** Once a value is cached, any number of calls return it and change
    nothing. *)
Lemma call_n_get_agent_hit n w v :
  resource_cache w = Some v ->
  call_n n get_agent w = (Ok (replicate n v), w).
Proof.
  intros H. induction n as [|n IH]; simpl; [reflexivity|].
  erewrite bind_Ok by (apply get_agent_hit; exact H).
  erewrite bind_Ok by exact IH. reflexivity.
Qed.

(** C4: after a first call that built the agent, any number [N] of further
    calls return that same agent object and leave the world untouched: the
    construction ran exactly once, in the first call. *)
Theorem get_agent_idempotent (w w1 : World) (agent : Agent) (N : nat)
    (Hfirst : resource_cache w = None)
    (Hbuilt : get_agent w = (Ok (Some agent), w1)) :
  constructions w1 = S (constructions w) /\
  call_n N get_agent w1 = (Ok (replicate N (Some agent)), w1) /\
  constructions (snd (call_n N get_agent w1)) = S (constructions w).
Proof.
  destruct (Agent_init_outcome w (constructions w)) as [msg|] eqn:Ho.
  - rewrite (get_agent_miss_failed _ _ Hfirst Ho) in Hbuilt. discriminate.
  - rewrite (get_agent_miss_Ok _ Hfirst Ho) in Hbuilt.
    injection Hbuilt as <- <-.
    assert (Hn : constructions
                   (set_resource_cache (Some (Some (agent_built w)))
                      (emit (Agent_init_ev (constructions w)) w))
                 = S (constructions w)).
    { unfold constructions. simpl. rewrite count_snoc. simpl. lia. }
    split; [exact Hn|].
    rewrite (call_n_get_agent_hit N _ (Some (agent_built w))) by reflexivity.
    split; [reflexivity|exact Hn].
Qed.

Lemma get_agent_idempotent_witness :
  constructions (after_get_agent healthy_world)
    = S (constructions healthy_world) /\
  call_n 5 get_agent (after_get_agent healthy_world)
  = (Ok (replicate 5 (Some (agent_built healthy_world))),
     after_get_agent healthy_world) /\
  constructions (snd (call_n 5 get_agent (after_get_agent healthy_world)))
    = S (constructions healthy_world).
Proof.
  apply (get_agent_idempotent healthy_world (after_get_agent healthy_world)
           (agent_built healthy_world) 5); reflexivity.
Defined.




(* ===================================================================== *)
(** ** The text tab *)
(* ===================================================================== *)

Lemma truthy_nonempty s : s <> "" -> truthy s = true.
Proof. destruct s; [congruence|reflexivity]. Qed.




(* ===================================================================== *)
(** ** The image tabs: analysis and clean-up *)
(* ===================================================================== *)

(** [get_agent] always returns; it touches no file and makes no remote
    call. *)
Lemma get_agent_returns w :
  exists v w' evs,
    get_agent w = (Ok v, w') /\
    fs w' = fs w /\
    trace w' = trace w ++ evs /\
    count is_os_unlink evs = 0%nat /\
    count is_st_image evs = 0%nat /\
    count is_Agent_run evs = 0%nat.
Proof.
  destruct (resource_cache w) as [v|] eqn:Hc.
  - exists v, w, []. rewrite (get_agent_hit _ _ Hc), app_nil_r. now repeat split.
  - destruct (Agent_init_outcome w (constructions w)) as [msg|] eqn:Ho.
    + do 2 eexists.
      exists [Agent_init_ev (constructions w);
              st_error_ev ("Error creating agent: " +:+ msg);
              st_error_ev (format_exc (Exception msg))].
      split; [apply (get_agent_miss_failed _ _ Hc Ho)|].
      split; [reflexivity|]. split; [simpl; now rewrite <- !app_assoc|].
      now repeat split.
    + do 2 eexists. exists [Agent_init_ev (constructions w)].
      split; [apply (get_agent_miss_Ok _ Hc Ho)|].
      now repeat split.
Qed.

(** With an agent at hand, the remote call is made on the file as it is,
    and a call that raises is reported, not propagated. *)
Lemma analyze_with_agent agent path w :
  exists w' rest,
    try_except
      (st_spinner "Analyzing image and generating content..."
         (response ← Agent_run agent
            "Analyze the given image to extract chapter names and generate educational content."
            [path] None;
          st_markdown (MdText (content response))))
      is_Exception
      (fun e =>
         st_error ("An error occurred during image analysis: " +:+ exn_str e);;
         st_error (format_exc e)) w
    = (Ok tt, w') /\
    fs w' = fs w /\
    trace w' = trace w ++
      st_spinner_ev "Analyzing image and generating content..." ::
      Agent_run_ev (image_call agent path (fs w !! path)) :: rest /\
    count is_os_unlink rest = 0%nat /\
    count is_st_image rest = 0%nat /\
    count is_Agent_run rest = 0%nat /\
    (forall msg, Agent_run_outcome w (remote_calls w) = Fail msg ->
       rest = [st_error_ev ("An error occurred during image analysis: " +:+ msg);
               st_error_ev (format_exc (Exception msg))]).
Proof.
  unfold Agent_run. unfold_M. simpl.
  replace (remote_calls
             (emit (st_spinner_ev "Analyzing image and generating content...") w))
    with (remote_calls w)
    by (unfold remote_calls; simpl; rewrite count_snoc; simpl; lia).
  destruct (Agent_run_outcome w (remote_calls w)) as [body|msg]; simpl.
  - do 2 eexists. split; [reflexivity|]. split; [reflexivity|].
    split; [simpl; rewrite <- !app_assoc; reflexivity|].
    split; [reflexivity|]. split; [reflexivity|]. split; [reflexivity|].
    discriminate.
  - do 2 eexists. split; [reflexivity|]. split; [reflexivity|].
    split; [simpl; rewrite <- !app_assoc; reflexivity|].
    split; [reflexivity|]. split; [reflexivity|]. split; [reflexivity|].
    intros msg' [= <-]. reflexivity.
Qed.

Lemma calls_attach_quiet path held evs :
  count is_Agent_run evs = 0%nat -> calls_attach path held evs.
Proof.
  unfold calls_attach, count. induction evs as [|e evs IH]; simpl; intros H.
  - constructor.
  - destruct e; simpl in H; try discriminate;
      (constructor; [intros call; discriminate | now apply IH]).
Qed.

(** [analyze_image] always returns normally, whatever the agent and the
    service do; it deletes nothing, leaves the files alone, and any remote
    call it makes attaches the file at [path] as it is at that moment. *)
Lemma analyze_image_returns path w :
  exists w' evs,
    analyze_image path w = (Ok tt, w') /\
    fs w' = fs w /\
    trace w' = trace w ++ evs /\
    count is_os_unlink evs = 0%nat /\
    count is_st_image evs = 0%nat /\
    calls_attach path (fs w !! path) evs /\
    (forall agent, fst (get_agent w) = Ok (Some agent) ->
       In (Agent_run_ev (image_call agent path (fs w !! path))) evs) /\
    (forall agent msg,
       resource_cache w = Some (Some agent) ->
       Agent_run_outcome w (remote_calls w) = Fail msg ->
       evs = [st_spinner_ev "Analyzing image and generating content...";
              Agent_run_ev (image_call agent path (fs w !! path));
              st_error_ev ("An error occurred during image analysis: " +:+ msg);
              st_error_ev (format_exc (Exception msg))]).
Proof.
  destruct (get_agent_returns w)
    as (v & wa & evs & Hget & Hfs & Htr & Hu & Hi & Hr).
  unfold analyze_image. rewrite (bind_Ok _ _ _ _ _ Hget).
  destruct v as [agent|].
  - destruct (analyze_with_agent agent path wa)
      as (w' & rest & Hrun & Hfs' & Htr' & Hu' & Hi' & Hr' & Hfail).
    exists w'. eexists. split; [exact Hrun|].
    split; [congruence|].
    split; [rewrite Htr', Htr, <- app_assoc; reflexivity|].
    split; [rewrite count_app, Hu; simpl; exact Hu'|].
    split; [rewrite count_app, Hi; simpl; exact Hi'|].
    split.
    + apply Forall_app. split; [now apply calls_attach_quiet|].
      rewrite <- Hfs. constructor; [intros call; discriminate|].
      constructor; [intros call [= <-]; reflexivity|].
      now apply calls_attach_quiet.
    + split.
      * intros agent' Hag. rewrite Hget in Hag. injection Hag as <-.
        apply in_or_app. right. rewrite <- Hfs. right. now left.
      * intros agent' msg Hc Hout.
        rewrite (get_agent_hit _ _ Hc) in Hget.
        injection Hget as <- <-.
        assert (evs = []) as ->
          by (apply (app_inv_head (trace w)); now rewrite app_nil_r).
        simpl. now rewrite (Hfail _ Hout).
  - exists wa, evs. split; [reflexivity|]. split; [exact Hfs|].
    split; [exact Htr|]. split; [exact Hu|]. split; [exact Hi|].
    split; [now apply calls_attach_quiet|].
    split.
    + intros agent Hag. rewrite Hget in Hag. discriminate.
    + intros agent msg Hc _. rewrite (get_agent_hit _ _ Hc) in Hget.
      discriminate.
Qed.

(** The steps of an image tab once its preview is made and its temporary
    file is written: the analysis returns, and the tab ends with the
    [os.unlink] of that file. *)
Lemma image_tab_clicked data caption w resized fp path w1 :
  resize_image_for_display (BytesIO_new data) = Ok (resized, fp) ->
  save_uploaded_file fp (emit (st_image_ev resized caption MAX_IMAGE_WIDTH) w)
    = (Ok path, w1) ->
  fs w !! path = None /\
  fs w1 = <[path := data]> (fs w) /\
  trace w1 = trace w ++ [st_image_ev resized caption MAX_IMAGE_WIDTH] /\
  resource_cache w1 = resource_cache w /\
  Agent_run_outcome w1 (remote_calls w1) = Agent_run_outcome w (remote_calls w) /\
  exists w2,
    analyze_image path w1 = (Ok tt, w2) /\
    image_tab (Some data) caption true w
    = (Ok tt, set_fs (delete path (fs w2)) (emit (os_unlink_ev path) w2)).
Proof.
  intros Hresize Hsave.
  pose proof (resize_image_for_display_buffer _ _ _ Hresize) as Hbuf.
  simpl in Hbuf.
  pose proof Hsave as Hsave'.
  apply save_uploaded_file_Ok in Hsave' as (Hfree & _ & drawn & Hw1).
  unfold getbuffer in Hw1. rewrite Hbuf in Hw1. simpl in Hfree, Hw1.
  split; [exact Hfree|]. subst w1.
  split; [reflexivity|]. split; [reflexivity|]. split; [reflexivity|].
  split.
  { simpl. unfold remote_calls. simpl. rewrite count_snoc. simpl.
    now rewrite Nat.add_0_r. }
  match type of Hsave with _ = (_, ?w1) =>
    destruct (analyze_image_returns path w1) as (w2 & evs & Hrun & Hfs & _)
  end.
  exists w2. split; [exact Hrun|].
  unfold image_tab. cbv zeta.
  erewrite bind_Ok by (unfold lift; rewrite Hresize; reflexivity).
  cbv beta iota.
  erewrite bind_Ok by reflexivity.
  erewrite bind_Ok by exact Hsave.
  erewrite bind_Ok by exact Hrun.
  apply (os_unlink_existing _ _ data).
  rewrite Hfs. simpl. apply lookup_insert_eq.
Qed.

(** In a run that no stop or rerun request interrupts: in an image request
    whose temporary file was written at [path], the tab returns normally on
    every path through the analysis, its last action is the one
    [os.unlink] of [path] (nothing before it deletes anything), and
    afterwards [path] no longer exists and the directory is as it was
    before the request.  In particular, with a cached agent whose remote
    call raises, the error is drawn and the file is still deleted. *)
Lemma image_tab_deletes_once (data : bytes) (caption : string)
    (w w1 : World) (resized : bytes) (fp : BytesIO) (path : string)
    (Hresize : resize_image_for_display (BytesIO_new data) = Ok (resized, fp))
    (Hsave : save_uploaded_file fp
               (emit (st_image_ev resized caption MAX_IMAGE_WIDTH) w)
             = (Ok path, w1)) :
  exists w' before,
    image_tab (Some data) caption true w = (Ok tt, w') /\
    trace w' = trace w ++ before ++ [os_unlink_ev path] /\
    count is_os_unlink before = 0%nat /\
    fs w' !! path = None /\
    fs w' = fs w /\
    (forall agent msg,
       resource_cache w = Some (Some agent) ->
       Agent_run_outcome w (remote_calls w) = Fail msg ->
       before =
         [st_image_ev resized caption MAX_IMAGE_WIDTH;
          st_spinner_ev "Analyzing image and generating content...";
          Agent_run_ev (image_call agent path (Some data));
          st_error_ev ("An error occurred during image analysis: " +:+ msg);
          st_error_ev (format_exc (Exception msg))]).
Proof.
  destruct (image_tab_clicked _ _ _ _ _ _ _ Hresize Hsave)
    as (Hfree & Hfs1 & Htr1 & Hc1 & Ho1 & w2 & Hrun & Htab).
  destruct (analyze_image_returns path w1)
    as (w2' & evs & Hrun' & Hfs2 & Htr2 & Hu & _ & _ & _ & Hfail).
  rewrite Hrun in Hrun'. injection Hrun' as <-.
  eexists. exists (st_image_ev resized caption MAX_IMAGE_WIDTH :: evs).
  split; [exact Htab|]. simpl.
  split; [rewrite Htr2, Htr1, <- !app_assoc; reflexivity|].
  split; [exact Hu|].
  split; [apply lookup_delete_eq|].
  split; [rewrite Hfs2, Hfs1; now apply delete_insert_id|].
  intros agent msg Hc Ho. f_equal.
  rewrite (Hfail agent msg); [|congruence|congruence].
  rewrite Hfs1, lookup_insert_eq. reflexivity.
Qed.

(** The same request run from the top of the script against a service
    that raises: the analysis error is drawn, then the file is deleted,
    and the directory ends empty. *)
Lemma failing_analysis_run :
  fst (script (upload_query (source PNG 900 600)) failing_remote_world) = Ok tt /\
  count is_Agent_run
    (trace (after (script (upload_query (source PNG 900 600)))
              failing_remote_world)) = 1%nat /\
  count is_os_unlink
    (trace (after (script (upload_query (source PNG 900 600)))
              failing_remote_world)) = 1%nat /\
  last (trace (after (script (upload_query (source PNG 900 600)))
                 failing_remote_world)) = Some (os_unlink_ev "tmp0.jpg") /\
  fs (after (script (upload_query (source PNG 900 600))) failing_remote_world)
    = ∅.
Proof. repeat split; vm_compute; reflexivity. Qed.

(** C9: in an image request the temporary file holds the source bytes as
    uploaded, although the file object was read by the preview first; every
    remote call of the request attaches that file and nothing else, so the
    service is given the source bytes; the resized bytes go to the one
    [st.image] that precedes the analysis and nowhere else.  With a cached
    agent such a remote call is indeed made. *)
Theorem analysis_uses_original_bytes (data : bytes) (caption : string)
    (w w1 : World) (resized : bytes) (fp : BytesIO) (path : string)
    (Hresize : resize_image_for_display (BytesIO_new data) = Ok (resized, fp))
    (Hsave : save_uploaded_file fp
               (emit (st_image_ev resized caption MAX_IMAGE_WIDTH) w)
             = (Ok path, w1)) :
  fs w1 !! path = Some data /\
  exists w' evs,
    image_tab (Some data) caption true w = (Ok tt, w') /\
    trace w' = trace w ++ st_image_ev resized caption MAX_IMAGE_WIDTH :: evs /\
    calls_attach path (Some data) evs /\
    count is_st_image evs = 0%nat /\
    (forall agent,
       resource_cache w = Some (Some agent) ->
       In (Agent_run_ev (image_call agent path (Some data))) evs).
Proof.
  destruct (image_tab_clicked _ _ _ _ _ _ _ Hresize Hsave)
    as (Hfree & Hfs1 & Htr1 & Hc1 & Ho1 & w2 & Hrun & Htab).
  assert (Hheld : fs w1 !! path = Some data)
    by (rewrite Hfs1; apply lookup_insert_eq).
  split; [exact Hheld|].
  destruct (analyze_image_returns path w1)
    as (w2' & evs & Hrun' & Hfs2 & Htr2 & Hu & Hi & Hcalls & Hmade & _).
  rewrite Hrun in Hrun'. injection Hrun' as <-.
  rewrite Hheld in Hcalls, Hmade.
  eexists. exists (evs ++ [os_unlink_ev path]).
  split; [exact Htab|]. simpl.
  split; [rewrite Htr2, Htr1, <- !app_assoc; reflexivity|].
  split.
  { apply Forall_app. split; [exact Hcalls|].
    constructor; [intros call; discriminate|constructor]. }
  split; [rewrite count_snoc, Hi; reflexivity|].
  intros agent Hc. apply in_or_app. left. apply Hmade.
  rewrite (get_agent_hit w1 (Some agent)); [reflexivity|congruence].
Qed.

Lemma analysis_uses_original_bytes_witness :
  fs (snd (save_uploaded_file (read_through (source PNG 900 600))
             (emit (st_image_ev preview_900x600 "Captured Photo" MAX_IMAGE_WIDTH)
                ready_world)))
    !! "tmp0.jpg" = Some (source PNG 900 600) /\
  exists w' evs,
    image_tab (Some (source PNG 900 600)) "Captured Photo" true ready_world
      = (Ok tt, w') /\
    trace w' = trace ready_world ++
      st_image_ev preview_900x600 "Captured Photo" MAX_IMAGE_WIDTH :: evs /\
    calls_attach "tmp0.jpg" (Some (source PNG 900 600)) evs /\
    count is_st_image evs = 0%nat /\
    (forall agent,
       resource_cache ready_world = Some (Some agent) ->
       In (Agent_run_ev (image_call agent "tmp0.jpg" (Some (source PNG 900 600))))
          evs).
Proof.
  apply (analysis_uses_original_bytes (source PNG 900 600) "Captured Photo"
           ready_world
           (snd (save_uploaded_file (read_through (source PNG 900 600))
                   (emit (st_image_ev preview_900x600 "Captured Photo"
                            MAX_IMAGE_WIDTH) ready_world)))
           preview_900x600 (read_through (source PNG 900 600)) "tmp0.jpg").
  - vm_compute. reflexivity.
  - vm_compute. reflexivity.
Defined.

(** The file object handed to [save_uploaded_file] has been read to its
    end by the preview, and the bytes saved are still the whole upload. *)
Lemma saved_bytes_ignore_position :
  exists resized fp,
    resize_image_for_display (BytesIO_new (source PNG 900 600))
      = Ok (resized, fp) /\
    position fp = length (source PNG 900 600) /\
    fst (read_all fp) = [] /\
    getbuffer fp = source PNG 900 600.
Proof. do 2 eexists. repeat split; vm_compute; reflexivity. Qed.

(* ===================================================================== *)
(** ** Frame rules *)
(* ===================================================================== *)

Section Frames.
Context (R : relation World) `{!PreOrder R}.

Lemma keeps_ret {A} (a : A) : keeps R (mret a).
Proof. intros w. simpl. reflexivity. Qed.

Lemma keeps_lift {A} (r : result A) : keeps R (lift r).
Proof. intros w. simpl. reflexivity. Qed.

Lemma keeps_raise {A} (e : exn) : keeps R (@raise A e).
Proof. intros w. simpl. reflexivity. Qed.

Lemma keeps_bind {A B} (m : M A) (k : A -> M B) :
  keeps R m -> (forall a, keeps R (k a)) -> keeps R (m ≫= k).
Proof.
  intros Hm Hk w. unfold mbind, M_bind, bind.
  specialize (Hm w). destruct (m w) as [[a|e] w1]; simpl in *.
  - etransitivity; [exact Hm|apply Hk].
  - exact Hm.
Qed.

Lemma keeps_try_except {A} (body : M A) catches handler :
  keeps R body -> (forall e, keeps R (handler e)) ->
  keeps R (try_except body catches handler).
Proof.
  intros Hb Hh w. unfold try_except.
  specialize (Hb w). destruct (body w) as [[a|e] w1]; simpl in *.
  - exact Hb.
  - destruct (catches e); simpl; [|exact Hb].
    etransitivity; [exact Hb|apply Hh].
Qed.

Lemma keeps_spinner {A} text (body : M A) :
  keeps R (log (st_spinner_ev text)) -> keeps R body ->
  keeps R (st_spinner text body).
Proof. intros Hl Hb. unfold st_spinner. apply keeps_bind; auto. Qed.

Lemma keeps_call_n {A} (m : M A) n : keeps R m -> keeps R (call_n n m).
Proof.
  intros Hm. induction n as [|n IH]; simpl.
  - apply keeps_ret.
  - apply keeps_bind; [exact Hm|]. intros a.
    apply keeps_bind; [exact IH|]. intros rest. apply keeps_ret.
Qed.
End Frames.

Section Raises.
Context (P : exn -> Prop).

Lemma raises_only_ret {A} (a : A) : raises_only P (mret a).
Proof. intros w e w'. discriminate. Qed.

Lemma raises_only_bind {A B} (m : M A) (k : A -> M B) :
  raises_only P m -> (forall a, raises_only P (k a)) ->
  raises_only P (m ≫= k).
Proof.
  intros Hm Hk w e w'. unfold mbind, M_bind, bind.
  destruct (m w) as [[a|e1] w1] eqn:E.
  - apply Hk.
  - intros [= <- <-]. eapply Hm, E.
Qed.

(** A handler that catches all its body can raise leaves only what the
    handler itself raises. *)
Lemma raises_only_try_except {A} (body : M A) catches handler
    (Q : exn -> Prop) :
  raises_only Q body ->
  (forall e, Q e -> catches e = true) ->
  (forall e, raises_only P (handler e)) ->
  raises_only P (try_except body catches handler).
Proof.
  intros Hb Hc Hh w e w'. unfold try_except.
  destruct (body w) as [[a|e1] w1] eqn:E; [discriminate|].
  rewrite (Hc e1 (Hb _ _ _ E)). apply Hh.
Qed.

Lemma raises_only_weaken {A} (m : M A) (Q : exn -> Prop) :
  raises_only Q m -> (forall e, Q e -> P e) -> raises_only P m.
Proof. intros Hm HQ w e w' E. eapply HQ, Hm, E. Qed.
End Raises.

Lemma never_raises_Ok (m : M unit) w :
  never_raises m -> m w = (Ok tt, snd (m w)).
Proof.
  intros H. destruct (m w) as [[[]|e] w'] eqn:E; [reflexivity|].
  destruct (H _ _ _ E).
Qed.

Lemma log_never_raises e : never_raises (log e).
Proof. intros w e' w'. discriminate. Qed.

#[global] Instance same_files_preorder : PreOrder same_files.
Proof. split; unfold same_files; [intros w|intros a b c ? ?]; congruence. Qed.

#[global] Instance same_environ_preorder : PreOrder same_environ.
Proof. split; unfold same_environ; [intros w|intros a b c ? ?]; congruence. Qed.

#[global] Instance same_session_preorder : PreOrder same_session.
Proof. split; unfold same_session; [intros w|intros a b c ? ?]; congruence. Qed.

#[global] Instance same_outcomes_preorder : PreOrder same_outcomes.
Proof.
  split; unfold same_outcomes; [intros w|intros a b c [] []]; split; congruence.
Qed.

#[global] Instance quiet_preorder : PreOrder quiet.
Proof.
  split; unfold quiet.
  - intros w. now repeat split.
  - intros a b c (? & ? & ? & ?) (? & ? & ? & ?). repeat split; congruence.
Qed.

#[global] Instance no_image_work_preorder : PreOrder no_image_work.
Proof.
  split; unfold no_image_work.
  - intros w. now repeat split.
  - intros a b c (? & ? & ? & ?) (? & ? & ? & ?). repeat split; congruence.
Qed.

#[global] Instance cache_grows_preorder : PreOrder cache_grows.
Proof.
  split; unfold cache_grows.
  - intros w. left. now split.
  - intros a b c [[Hc1 Hn1]|(Hc1 & Hs1 & Hn1)] [[Hc2 Hn2]|(Hc2 & Hs2 & Hn2)].
    + left. split; congruence.
    + right. repeat split; [congruence|exact Hs2|congruence].
    + right. repeat split; [exact Hc1|congruence|congruence].
    + rewrite Hc2 in Hs1. destruct Hs1 as [? [=]].
Qed.

(* ===================================================================== *)
(** ** Frames of the library calls *)
(* ===================================================================== *)

Ltac unfold_rel :=
  unfold same_files, same_environ, same_session, same_outcomes, cache_grows,
    quiet, no_image_work, constructions, remote_calls in *.

Ltac leaf :=
  intros ?w; unfold_rel;
  unfold st_title, st_write, st_error, st_warning, st_markdown, st_image,
    session_agent_run, secrets_getitem, environ_setitem, os_getenv,
    Agent_new, Agent_run, session_state_has_agent, session_state_set_agent,
    file_write, os_unlink, st_stop, raise, lift, log;
  repeat case_match; simpl; rewrite ?count_snoc; simpl;
  rewrite ?Nat.add_0_r; auto.

Create HintDb frame discriminated.

Ltac frame :=
  repeat first
    [ match goal with
      | |- keeps ?R (mret _) => apply (keeps_ret R)
      | |- keeps ?R (lift _) => apply (keeps_lift R)
      | |- keeps ?R (st_spinner _ _) => apply (keeps_spinner R)
      | |- keeps ?R (_ ≫= _) => apply (keeps_bind R); [|intros ?]
      | |- keeps ?R (try_except _ _ _) =>
          apply (keeps_try_except R); [|intros ?]
      | |- keeps _ (match ?x with _ => _ end) => destruct x
      end
    | solve [eauto with frame]
    | solve [leaf] ].

(** A failed [mkstemp] has only drawn names. *)
Lemma mkstemp_Raise attempts suffix w e w' :
  mkstemp attempts suffix w = (Raise e, w') ->
  e = FileExistsError /\ exists drawn, w' = set_names_drawn drawn w.
Proof.
  revert w. induction attempts as [|attempts IH]; intros w; simpl.
  - intros [= <- <-]. split; [reflexivity|].
    exists (names_drawn w). now destruct w.
  - destruct (fs w !! temp_name w suffix); [|discriminate].
    intros H. apply IH in H as (-> & drawn & ->).
    split; [reflexivity|]. now exists drawn.
Qed.

(** The two ways [save_uploaded_file] can end. *)
Lemma save_uploaded_file_cases uploaded_file w :
  (exists drawn,
     save_uploaded_file uploaded_file w
     = (Raise FileExistsError, set_names_drawn drawn w)) \/
  (exists path drawn,
     fs w !! path = None /\
     save_uploaded_file uploaded_file w
     = (Ok path, set_fs (<[path := getbuffer uploaded_file]> (fs w))
                   (set_names_drawn drawn w))).
Proof.
  destruct (save_uploaded_file uploaded_file w) as [[path|e] w'] eqn:E.
  - right. apply save_uploaded_file_Ok in E as (Hfree & _ & drawn & ->).
    now exists path, drawn.
  - left. revert E. unfold save_uploaded_file, NamedTemporaryFile.
    unfold mbind, M_bind, bind.
    destruct (mkstemp TMP_MAX ".jpg" w) as [[name|e1] w1] eqn:Hmk.
    + unfold file_write, mret, M_ret, ret. discriminate.
    + intros [= <- <-]. apply mkstemp_Raise in Hmk as (-> & drawn & ->).
      now exists drawn.
Qed.

Lemma get_agent_cases w :
  (exists v, resource_cache w = Some v /\ get_agent w = (Ok v, w)) \/
  (resource_cache w = None /\
   exists v w',
     get_agent w = (Ok v, w') /\
     resource_cache w' = Some v /\
     constructions w' = S (constructions w) /\
     fs w' = fs w /\ environ w' = environ w /\ names_drawn w' = names_drawn w /\
     session_agent w' = session_agent w /\
     remote_calls w' = remote_calls w /\
     count is_os_unlink (trace w') = count is_os_unlink (trace w) /\
     same_outcomes w w').
Proof.
  destruct (resource_cache w) as [v|] eqn:Hc.
  - left. exists v. split; [reflexivity|]. now apply get_agent_hit.
  - right. split; [reflexivity|].
    destruct (Agent_init_outcome w (constructions w)) as [msg|] eqn:Ho.
    + do 2 eexists. split; [apply (get_agent_miss_failed _ _ Hc Ho)|].
      unfold_rel. simpl. rewrite !count_snoc. simpl.
      repeat split; lia.
    + do 2 eexists. split; [apply (get_agent_miss_Ok _ Hc Ho)|].
      unfold_rel. simpl. rewrite !count_snoc. simpl.
      repeat split; lia.
Qed.

Lemma get_agent_never_raises : never_raises get_agent.
Proof.
  intros w e w' E.
  destruct (get_agent_cases w) as [(v & _ & H)|(_ & v & w1 & H & _)];
    rewrite H in E; discriminate.
Qed.

Lemma get_agent_keeps_files : keeps same_files get_agent.
Proof.
  intros w. destruct (get_agent_cases w)
    as [(v & _ & ->)|(_ & v & w1 & -> & ? & ? & ? & _)]; simpl; [reflexivity|].
  assumption.
Qed.

Lemma get_agent_keeps_environ : keeps same_environ get_agent.
Proof.
  intros w. destruct (get_agent_cases w)
    as [(v & _ & ->)|(_ & v & w1 & -> & ? & ? & ? & ? & _)]; simpl;
    [reflexivity|assumption].
Qed.

Lemma get_agent_keeps_session : keeps same_session get_agent.
Proof.
  intros w. destruct (get_agent_cases w)
    as [(v & _ & ->)|(_ & v & w1 & -> & ? & ? & ? & ? & ? & ? & _)]; simpl;
    [reflexivity|assumption].
Qed.

Lemma get_agent_keeps_outcomes : keeps same_outcomes get_agent.
Proof.
  intros w. destruct (get_agent_cases w)
    as [(v & _ & ->)|(_ & v & w1 & -> & ? & ? & ? & ? & ? & ? & ? & ? & ?)];
    simpl; [reflexivity|assumption].
Qed.

Lemma get_agent_quiet : keeps quiet get_agent.
Proof.
  intros w. destruct (get_agent_cases w)
    as [(v & _ & ->)|(_ & v & w1 & -> & ? & ? & ? & ? & ? & ? & ? & ? & ?)];
    simpl; [reflexivity|]. now repeat split.
Qed.

Lemma get_agent_cache_grows : keeps cache_grows get_agent.
Proof.
  intros w. destruct (get_agent_cases w)
    as [(v & _ & ->)|(Hc & v & w1 & -> & Hc' & Hn & _)]; simpl;
    [reflexivity|].
  right. repeat split; [exact Hc| |exact Hn]. rewrite Hc'. now eexists.
Qed.

Lemma save_keeps_cache : forall f, keeps cache_grows (save_uploaded_file f).
Proof.
  intros f w. destruct (save_uploaded_file_cases f w)
    as [(k & ->)|(path & k & _ & ->)]; simpl; now left.
Qed.

Lemma save_keeps_environ : forall f, keeps same_environ (save_uploaded_file f).
Proof.
  intros f w. destruct (save_uploaded_file_cases f w)
    as [(k & ->)|(path & k & _ & ->)]; reflexivity.
Qed.

Lemma save_keeps_session : forall f, keeps same_session (save_uploaded_file f).
Proof.
  intros f w. destruct (save_uploaded_file_cases f w)
    as [(k & ->)|(path & k & _ & ->)]; reflexivity.
Qed.

Lemma save_keeps_outcomes : forall f, keeps same_outcomes (save_uploaded_file f).
Proof.
  intros f w. destruct (save_uploaded_file_cases f w)
    as [(k & ->)|(path & k & _ & ->)]; now split.
Qed.

#[global] Hint Resolve get_agent_keeps_files get_agent_keeps_environ
  get_agent_keeps_session get_agent_keeps_outcomes get_agent_quiet
  get_agent_cache_grows save_keeps_cache save_keeps_environ
  save_keeps_session save_keeps_outcomes : frame.

(* ===================================================================== *)
(** ** Frames of the script's functions *)
(* ===================================================================== *)

Ltac no_raise :=
  repeat first
    [ apply raises_only_ret | apply log_never_raises
    | apply raises_only_bind; [|intros ?]
    | match goal with
      | |- raises_only _ (match ?x with _ => _ end) => destruct x
      end
    | solve [eauto with frame] ].

Lemma Agent_run_raises agent message images markdown :
  raises_only (fun e => is_Exception e = true)
    (Agent_run agent message images markdown).
Proof.
  intros w e w'. unfold Agent_run.
  destruct (Agent_run_outcome w _); intros [= <- <-]. reflexivity.
Qed.

Lemma session_agent_run_raises message :
  raises_only (fun e => is_Exception e = true) (session_agent_run message).
Proof.
  intros w e w'. unfold session_agent_run.
  destruct (session_agent w) as [[agent|]|].
  - apply Agent_run_raises.
  - intros [= <- <-]. reflexivity.
  - intros [= <- <-]. reflexivity.
Qed.

Lemma st_markdown_raises body :
  raises_only (fun e => is_Exception e = true) (st_markdown body).
Proof. intros w e w'. discriminate. Qed.

#[global] Hint Resolve Agent_run_raises session_agent_run_raises
  st_markdown_raises get_agent_never_raises : frame.

Lemma tab1_never_raises inp : never_raises (tab1 inp).
Proof.
  unfold never_raises, tab1.
  destruct (get_answer inp); [|apply raises_only_ret].
  destruct (truthy (user_input inp)); [|apply log_never_raises].
  apply (raises_only_try_except _ _ _ _ (fun e => is_Exception e = true)).
  - unfold st_spinner.
    apply raises_only_bind; [intros w e w'; discriminate|intros _].
    apply raises_only_bind; [auto with frame|intros r].
    auto with frame.
  - auto.
  - intros e. unfold st_error. no_raise.
Qed.

Lemma analyze_image_never_raises path : never_raises (analyze_image path).
Proof.
  unfold never_raises, analyze_image.
  apply raises_only_bind; [apply get_agent_never_raises|intros [agent|]];
    [|apply raises_only_ret].
  apply (raises_only_try_except _ _ _ _ (fun e => is_Exception e = true)).
  - unfold st_spinner.
    apply raises_only_bind; [intros w e w'; discriminate|intros _].
    apply raises_only_bind; [auto with frame|intros r].
    auto with frame.
  - auto.
  - intros e. unfold st_error. no_raise.
Qed.

Lemma init_session_agent_never_raises : never_raises init_session_agent.
Proof.
  unfold never_raises, init_session_agent.
  apply raises_only_bind; [intros w e w'; discriminate|intros present].
  destruct (negb present); [|apply raises_only_ret].
  apply raises_only_bind; [apply get_agent_never_raises|intros agent].
  intros w e w'. discriminate.
Qed.

#[global] Hint Resolve tab1_never_raises analyze_image_never_raises
  init_session_agent_never_raises : frame.

Lemma tab1_keeps_files inp : keeps same_files (tab1 inp).
Proof. unfold tab1. frame. Qed.

Lemma tab1_keeps_environ inp : keeps same_environ (tab1 inp).
Proof. unfold tab1. frame. Qed.

Lemma tab1_keeps_session inp : keeps same_session (tab1 inp).
Proof. unfold tab1. frame. Qed.

Lemma tab1_keeps_outcomes inp : keeps same_outcomes (tab1 inp).
Proof. unfold tab1. frame. Qed.

Lemma tab1_keeps_cache inp : keeps cache_grows (tab1 inp).
Proof. unfold tab1. frame. Qed.

Lemma analyze_image_keeps_files path : keeps same_files (analyze_image path).
Proof. unfold analyze_image. frame. Qed.

Lemma analyze_image_keeps_environ path : keeps same_environ (analyze_image path).
Proof. unfold analyze_image. frame. Qed.

Lemma analyze_image_keeps_session path : keeps same_session (analyze_image path).
Proof. unfold analyze_image. frame. Qed.

Lemma analyze_image_keeps_outcomes path : keeps same_outcomes (analyze_image path).
Proof. unfold analyze_image. frame. Qed.

Lemma analyze_image_keeps_cache path : keeps cache_grows (analyze_image path).
Proof. unfold analyze_image. frame. Qed.

#[global] Hint Resolve analyze_image_keeps_files analyze_image_keeps_environ
  analyze_image_keeps_session analyze_image_keeps_outcomes
  analyze_image_keeps_cache : frame.

Lemma image_tab_keeps_environ file caption clicked :
  keeps same_environ (image_tab file caption clicked).
Proof. unfold image_tab. frame. Qed.

Lemma image_tab_keeps_session file caption clicked :
  keeps same_session (image_tab file caption clicked).
Proof. unfold image_tab. frame. Qed.

Lemma image_tab_keeps_outcomes file caption clicked :
  keeps same_outcomes (image_tab file caption clicked).
Proof. unfold image_tab. frame. Qed.

Lemma image_tab_keeps_cache file caption clicked :
  keeps cache_grows (image_tab file caption clicked).
Proof. unfold image_tab. frame. Qed.

Lemma get_agent_no_image_work : keeps no_image_work get_agent.
Proof.
  intros w.
  destruct (get_agent_cases w)
    as [(v & _ & ->)|(_ & v & w1 & H & _ & _ & ? & _ & ? & _ & _ & ? & _)];
    simpl; [reflexivity|].
  destruct (get_agent_returns w) as (v' & w1' & evs & H' & _ & Htr & _ & Hi & _).
  rewrite H in H'. injection H' as <- <-. rewrite H. simpl.
  unfold no_image_work. repeat split; try assumption.
  rewrite Htr, count_app, Hi. lia.
Qed.

#[global] Hint Resolve get_agent_no_image_work : frame.

Lemma init_session_agent_keeps_files : keeps same_files init_session_agent.
Proof. unfold init_session_agent. frame. Qed.

Lemma init_session_agent_keeps_environ : keeps same_environ init_session_agent.
Proof. unfold init_session_agent. frame. Qed.

Lemma init_session_agent_keeps_outcomes : keeps same_outcomes init_session_agent.
Proof. unfold init_session_agent. frame. Qed.

Lemma init_session_agent_keeps_cache : keeps cache_grows init_session_agent.
Proof. unfold init_session_agent. frame. Qed.

Lemma init_session_agent_quiet : keeps quiet init_session_agent.
Proof. unfold init_session_agent. frame. Qed.

Lemma init_session_agent_no_image_work : keeps no_image_work init_session_agent.
Proof. unfold init_session_agent. frame. Qed.

Lemma tab1_no_image_work inp : keeps no_image_work (tab1 inp).
Proof. unfold tab1. frame. Qed.

(** An image tab leaves the directory as it found it, on every path. *)
Lemma image_tab_keeps_files file caption clicked :
  keeps same_files (image_tab file caption clicked).
Proof.
  intros w. unfold same_files.
  destruct file as [data|]; [|reflexivity].
  destruct (resize_image_for_display (BytesIO_new data))
    as [[resized fp]|e] eqn:Hres.
  - destruct clicked.
    + destruct (save_uploaded_file_cases fp
                  (emit (st_image_ev resized caption MAX_IMAGE_WIDTH) w))
        as [(k & Hs)|(path & k & Hfree & Hs)].
      * unfold image_tab. cbv zeta.
        erewrite bind_Ok by (unfold lift; rewrite Hres; reflexivity).
        cbv beta iota. erewrite bind_Ok by reflexivity.
        erewrite bind_Raise by exact Hs. reflexivity.
      * destruct (image_tab_clicked _ _ _ _ _ _ _ Hres Hs)
          as (_ & Hfs1 & _ & _ & _ & w2 & Hrun & ->).
        match type of Hrun with analyze_image _ ?w1 = _ =>
          pose proof (analyze_image_keeps_files path w1) as Hfs2
        end.
        rewrite Hrun in Hfs2. unfold same_files in Hfs2. simpl in Hfs2 |- *.
        rewrite Hfs2. simpl. now apply delete_insert_id.
    + unfold image_tab. cbv zeta.
      erewrite bind_Ok by (unfold lift; rewrite Hres; reflexivity).
      cbv beta iota. erewrite bind_Ok by reflexivity. reflexivity.
  - unfold image_tab. cbv zeta.
    erewrite bind_Raise by (unfold lift; rewrite Hres; reflexivity).
    reflexivity.
Qed.

(** An image tab lets out only an error of its preview, or the failure to
    find a free temporary name. *)
Lemma image_tab_raises file caption clicked :
  raises_only
    (fun e => e = FileExistsError \/
              exists data, file = Some data /\
                resize_image_for_display (BytesIO_new data) = Raise e)
    (image_tab file caption clicked).
Proof.
  intros w e w'.
  destruct file as [data|]; [|discriminate].
  destruct (resize_image_for_display (BytesIO_new data))
    as [[resized fp]|e1] eqn:Hres.
  - destruct clicked.
    + destruct (save_uploaded_file_cases fp
                  (emit (st_image_ev resized caption MAX_IMAGE_WIDTH) w))
        as [(k & Hs)|(path & k & Hfree & Hs)].
      * unfold image_tab. cbv zeta.
        erewrite bind_Ok by (unfold lift; rewrite Hres; reflexivity).
        cbv beta iota. erewrite bind_Ok by reflexivity.
        erewrite bind_Raise by exact Hs. intros [= <- <-]. now left.
      * destruct (image_tab_clicked _ _ _ _ _ _ _ Hres Hs)
          as (_ & _ & _ & _ & _ & w2 & _ & ->).
        discriminate.
    + unfold image_tab. cbv zeta.
      erewrite bind_Ok by (unfold lift; rewrite Hres; reflexivity).
      cbv beta iota. erewrite bind_Ok by reflexivity. discriminate.
  - unfold image_tab. cbv zeta.
    erewrite bind_Raise by (unfold lift; rewrite Hres; reflexivity).
    intros [= <- <-]. right. now exists data.
Qed.

#[global] Hint Resolve tab1_keeps_files tab1_keeps_environ tab1_keeps_session
  tab1_keeps_outcomes tab1_keeps_cache tab1_no_image_work
  image_tab_keeps_files image_tab_keeps_environ image_tab_keeps_session
  image_tab_keeps_outcomes image_tab_keeps_cache
  init_session_agent_keeps_files init_session_agent_keeps_environ
  init_session_agent_keeps_outcomes init_session_agent_keeps_cache
  init_session_agent_quiet init_session_agent_no_image_work : frame.

Lemma main_keeps_files inp : keeps same_files (main inp).
Proof. unfold main, tab2, tab3. frame. Qed.

Lemma main_keeps_environ inp : keeps same_environ (main inp).
Proof. unfold main, tab2, tab3. frame. Qed.

Lemma main_keeps_outcomes inp : keeps same_outcomes (main inp).
Proof. unfold main, tab2, tab3. frame. Qed.

Lemma main_keeps_cache inp : keeps cache_grows (main inp).
Proof. unfold main, tab2, tab3. frame. Qed.

Lemma secrets_setup_keeps_files : keeps same_files secrets_setup.
Proof. unfold secrets_setup. frame. Qed.

Lemma secrets_setup_keeps_cache : keeps cache_grows secrets_setup.
Proof. unfold secrets_setup. frame. Qed.

#[global] Hint Resolve main_keeps_files main_keeps_environ main_keeps_outcomes
  main_keeps_cache secrets_setup_keeps_files secrets_setup_keeps_cache : frame.

Lemma script_keeps_files inp : keeps same_files (script inp).
Proof. unfold script. frame. Qed.

Lemma script_keeps_cache inp : keeps cache_grows (script inp).
Proof. unfold script. frame. Qed.

(* ===================================================================== *)
(** ** Whole runs: constructions and the cache *)
(* ===================================================================== *)

Lemma run_all_cache_grows inps w : cache_grows w (run_all inps w).
Proof.
  revert w. induction inps as [|inp inps IH]; intros w; simpl.
  - reflexivity.
  - etransitivity; [apply (script_keeps_cache inp w)|apply IH].
Qed.


(** X3: once [st.cache_resource] holds a value for [get_agent], be it an
    agent or the [None] of a failed construction, no later script run
    replaces it or starts another construction. *)
Theorem cached_value_is_final (inps : list Inputs) (w : World)
    (v : option Agent) (Hcached : resource_cache w = Some v) :
  resource_cache (run_all inps w) = Some v /\
  constructions (run_all inps w) = constructions w.
Proof.
  destruct (run_all_cache_grows inps w) as [[-> ->]|(Hc & _)].
  - now split.
  - congruence.
Qed.

Lemma cached_value_is_final_witness :
  resource_cache
    (run_all [text_query "Photosynthesis";
              upload_query (source JPEG 900 600); no_input] poisoned_world)
    = Some None /\
  constructions
    (run_all [text_query "Photosynthesis";
              upload_query (source JPEG 900 600); no_input] poisoned_world)
    = constructions poisoned_world.
Proof.
  apply (cached_value_is_final
           [text_query "Photosynthesis"; upload_query (source JPEG 900 600);
            no_input] poisoned_world None).
  reflexivity.
Defined.

(** X4: a run of [main] in which no button is pressed makes no remote
    call, creates and deletes no file and draws no temporary name; it only
    draws, and builds the agent if none is cached. *)
Theorem main_without_click (inp : Inputs) (w : World)
    (Htext : get_answer inp = false)
    (Hupload : analyze_upload inp = false)
    (Hcamera : analyze_camera inp = false) :
  remote_calls (snd (main inp w)) = remote_calls w /\
  fs (snd (main inp w)) = fs w /\
  names_drawn (snd (main inp w)) = names_drawn w /\
  count is_os_unlink (trace (snd (main inp w)))
    = count is_os_unlink (trace w).
Proof.
  assert (H : keeps quiet (main inp)).
  { unfold main, tab1, tab2, tab3, image_tab.
    rewrite Htext, Hupload, Hcamera. frame. }
  destruct (H w) as (? & ? & ? & ?). now repeat split.
Qed.

Lemma main_without_click_witness :
  remote_calls (snd (main (preview_only (source PNG 900 600)) healthy_world))
    = remote_calls healthy_world /\
  fs (snd (main (preview_only (source PNG 900 600)) healthy_world))
    = fs healthy_world /\
  names_drawn (snd (main (preview_only (source PNG 900 600)) healthy_world))
    = names_drawn healthy_world /\
  count is_os_unlink
    (trace (snd (main (preview_only (source PNG 900 600)) healthy_world)))
    = count is_os_unlink (trace healthy_world).
Proof.
  apply (main_without_click (preview_only (source PNG 900 600)) healthy_world);
    reflexivity.
Defined.

(* ===================================================================== *)
(** ** The text tab, path by path *)
(* ===================================================================== *)

Lemma remote_calls_emit e w :
  remote_calls (emit e w)
  = (remote_calls w + if is_Agent_run e then 1 else 0)%nat.
Proof. unfold remote_calls. simpl. apply count_snoc. Qed.



(** What the text tab does with an agent in the session, by the answer of
    the service. *)
Lemma tab1_with_agent inp w agent :
  get_answer inp = true -> user_input inp <> "" ->
  session_agent w = Some (Some agent) ->
  exists w',
    tab1 inp w = (Ok tt, w') /\
    session_agent w' = Some (Some agent) /\
    same_outcomes w w' /\
    remote_calls w' = S (remote_calls w) /\
    trace w' = trace w ++
      st_spinner_ev "Searching for info..." ::
      Agent_run_ev (text_call agent (user_input inp)) ::
      match Agent_run_outcome w (remote_calls w) with
      | Reply body => [st_markdown_ev (MdResponse {| content := body |})]
      | Fail msg => error_report "An error occurred: " (Exception msg)
      end.
Proof.
  intros Hclick Htext Hagent.
  unfold tab1. rewrite Hclick, (truthy_nonempty _ Htext).
  unfold session_agent_run, Agent_run. unfold_M. simpl.
  rewrite Hagent, remote_calls_emit. simpl. rewrite Nat.add_0_r.
  destruct (Agent_run_outcome w (remote_calls w)) as [body|msg]; simpl;
    (eexists; split; [reflexivity|]; simpl;
     split; [exact Hagent|]; split; [now split|];
     split; [rewrite !remote_calls_emit; simpl; lia|];
     rewrite <- !app_assoc; reflexivity).
Qed.



(* ===================================================================== *)
(** ** The image tabs, path by path *)
(* ===================================================================== *)

Lemma analyze_image_no_agent path w :
  resource_cache w = Some None -> analyze_image path w = (Ok tt, w).
Proof.
  intros Hc. unfold analyze_image.
  now rewrite (bind_Ok _ _ _ _ _ (get_agent_hit _ _ Hc)).
Qed.

Lemma analyze_image_reply path w agent body :
  resource_cache w = Some (Some agent) ->
  Agent_run_outcome w (remote_calls w) = Reply body ->
  exists w',
    analyze_image path w = (Ok tt, w') /\
    trace w' = trace w ++
      [st_spinner_ev "Analyzing image and generating content...";
       Agent_run_ev (image_call agent path (fs w !! path));
       st_markdown_ev (MdText body)].
Proof.
  intros Hc Ho. unfold analyze_image.
  rewrite (bind_Ok _ _ _ _ _ (get_agent_hit _ _ Hc)).
  unfold Agent_run. unfold_M. simpl.
  rewrite remote_calls_emit. simpl. rewrite Nat.add_0_r, Ho. simpl.
  eexists. split; [reflexivity|]. simpl.
  rewrite <- !app_assoc. reflexivity.
Qed.



(** X11: two saves in a row never collide: the second file gets a name
    different from the first, each name was free when it was taken, both
    files hold the whole buffer of their file object, and every other file
    of the directory is untouched. *)
Theorem save_uploaded_file_fresh (f1 f2 : BytesIO) (w w1 w2 : World)
    (p1 p2 : string)
    (Hsave1 : save_uploaded_file f1 w = (Ok p1, w1))
    (Hsave2 : save_uploaded_file f2 w1 = (Ok p2, w2)) :
  p1 <> p2 /\
  fs w !! p1 = None /\
  fs w !! p2 = None /\
  fs w2 !! p1 = Some (getbuffer f1) /\
  fs w2 !! p2 = Some (getbuffer f2) /\
  forall q, q <> p1 -> q <> p2 -> fs w2 !! q = fs w !! q.
Proof.
  apply save_uploaded_file_Ok in Hsave1 as (Hfree1 & _ & k1 & ->).
  apply save_uploaded_file_Ok in Hsave2 as (Hfree2 & _ & k2 & ->).
  simpl in *.
  assert (Hne : p1 <> p2).
  { intros ->. rewrite lookup_insert_eq in Hfree2. discriminate. }
  split; [exact Hne|]. split; [exact Hfree1|].
  split; [now rewrite lookup_insert_ne in Hfree2|].
  split; [now rewrite lookup_insert_ne, lookup_insert_eq|].
  split; [apply lookup_insert_eq|].
  intros q Hq1 Hq2. now rewrite !lookup_insert_ne.
Qed.

Lemma save_uploaded_file_fresh_witness :
  "tmp0.jpg" <> "tmp1.jpg" /\
  fs healthy_world !! "tmp0.jpg" = None /\
  fs healthy_world !! "tmp1.jpg" = None /\
  fs (snd (save_uploaded_file (BytesIO_new (source PNG 15 11))
             (snd (save_uploaded_file (BytesIO_new (source JPEG 900 600))
                     healthy_world))))
    !! "tmp0.jpg" = Some (getbuffer (BytesIO_new (source JPEG 900 600))) /\
  fs (snd (save_uploaded_file (BytesIO_new (source PNG 15 11))
             (snd (save_uploaded_file (BytesIO_new (source JPEG 900 600))
                     healthy_world))))
    !! "tmp1.jpg" = Some (getbuffer (BytesIO_new (source PNG 15 11))) /\
  forall q, q <> "tmp0.jpg" -> q <> "tmp1.jpg" ->
    fs (snd (save_uploaded_file (BytesIO_new (source PNG 15 11))
               (snd (save_uploaded_file (BytesIO_new (source JPEG 900 600))
                       healthy_world))))
      !! q = fs healthy_world !! q.
Proof.
  apply (save_uploaded_file_fresh (BytesIO_new (source JPEG 900 600))
           (BytesIO_new (source PNG 15 11)) healthy_world
           (snd (save_uploaded_file (BytesIO_new (source JPEG 900 600))
                   healthy_world))).
  - vm_compute. reflexivity.
  - vm_compute. reflexivity.
Defined.

(* ===================================================================== *)
(** ** [main] and the script, step by step *)
(* ===================================================================== *)

(** The world in which [main] reaches line 104. *)
Lemma main_steps inp w :
  main inp w
  = (init_session_agent;; tab1 inp;; tab2 inp;; tab3 inp)
      (emit (st_write_ev "Upload an image containing chapter names to receive explanations, real-world examples, and FAQs for each topic.")
         (emit (st_title_ev "📘 AI-Powered Tutor Agent") w)).
Proof. reflexivity. Qed.

Lemma init_session_agent_set w v :
  session_agent w = Some v -> init_session_agent w = (Ok tt, w).
Proof.
  intros H. unfold init_session_agent, session_state_has_agent. unfold_M.
  rewrite H. reflexivity.
Qed.

Lemma init_session_agent_unset w :
  session_agent w = None ->
  exists v w1,
    get_agent w = (Ok v, w1) /\
    resource_cache w1 = Some v /\
    init_session_agent w = (Ok tt, set_session_agent (Some v) w1).
Proof.
  intros H.
  assert (Hget : exists v w1, get_agent w = (Ok v, w1) /\ resource_cache w1 = Some v).
  { destruct (get_agent_cases w) as [(v & Hc & Hg)|(_ & v & w1 & Hg & Hc & _)];
      eauto. }
  destruct Hget as (v & w1 & Hg & Hc). exists v, w1.
  split; [exact Hg|]. split; [exact Hc|].
  unfold init_session_agent, session_state_has_agent, session_state_set_agent.
  unfold_M. rewrite H. simpl. now rewrite Hg.
Qed.

Lemma tabs_keep_session inp : keeps same_session (tab1 inp;; tab2 inp;; tab3 inp).
Proof. unfold tab2, tab3. frame. Qed.

Lemma tabs_keep_cache inp : keeps cache_grows (tab1 inp;; tab2 inp;; tab3 inp).
Proof. unfold tab2, tab3. frame. Qed.

Lemma cache_grows_Some w w' v :
  cache_grows w w' -> resource_cache w = Some v ->
  resource_cache w' = Some v /\ constructions w' = constructions w.
Proof. intros [[-> ->]|(Hc & _)] H; [now split|congruence]. Qed.


Lemma secrets_setup_Ok w tavily gemini :
  secrets w !! "TAVILY_KEY" = Some tavily ->
  secrets w !! "GEMINI_KEY" = Some gemini ->
  secrets_setup w
  = (Ok tt,
     set_environ (<["GOOGLE_API_KEY" := gemini]>
                    (<["TAVILY_API_KEY" := tavily]> (environ w))) w).
Proof.
  intros H1 H2. unfold secrets_setup, secrets_getitem, environ_setitem. unfold_M.
  rewrite H1. simpl. rewrite H2. reflexivity.
Qed.



(** X14: when [TAVILY_KEY] is present and [GEMINI_KEY] is missing, the
    script has already written [TAVILY_API_KEY] into the environment when
    it stops: the run halts with the environment half set, and
    [GOOGLE_API_KEY] as it was. *)
Theorem startup_stops_half_set (inp : Inputs) (w : World) (tavily : string)
    (Htavily : secrets w !! "TAVILY_KEY" = Some tavily)
    (Hgemini : secrets w !! "GEMINI_KEY" = None) :
  fst (script inp w) = Raise StopException /\
  environ (snd (script inp w)) = <["TAVILY_API_KEY" := tavily]> (environ w) /\
  environ (snd (script inp w)) !! "GOOGLE_API_KEY"
    = environ w !! "GOOGLE_API_KEY".
Proof.
  unfold script.
  rewrite (bind_Raise _ _ _ _ _ (secrets_setup_no_gemini _ _ Htavily Hgemini)).
  simpl. split; [reflexivity|]. split; [reflexivity|].
  now rewrite lookup_insert_ne.
Qed.

Lemma startup_stops_half_set_witness :
  fst (script no_input
         (initial_world {[ "TAVILY_KEY" := "tvly-0" ]} (fun _ => None)
            (fun _ => Reply ""))) = Raise StopException /\
  environ (snd (script no_input
                  (initial_world {[ "TAVILY_KEY" := "tvly-0" ]} (fun _ => None)
                     (fun _ => Reply ""))))
    = <["TAVILY_API_KEY" := "tvly-0"]> ∅ /\
  environ (snd (script no_input
                  (initial_world {[ "TAVILY_KEY" := "tvly-0" ]} (fun _ => None)
                     (fun _ => Reply "")))) !! "GOOGLE_API_KEY"
    = (∅ : gmap string string) !! "GOOGLE_API_KEY".
Proof.
  apply (startup_stops_half_set no_input
           (initial_world {[ "TAVILY_KEY" := "tvly-0" ]} (fun _ => None)
              (fun _ => Reply "")) "tvly-0"); reflexivity.
Defined.



(** A session entry that is set is what [main] leaves. *)
Lemma main_keeps_set_session inp w v :
  session_agent w = Some v ->
  session_agent (snd (main inp w)) = Some v.
Proof.
  intros Hs. rewrite main_steps.
  set (w2 := emit _ (emit _ w)).
  assert (Hs2 : session_agent w2 = Some v) by exact Hs.
  rewrite (bind_Ok _ _ _ _ _ (init_session_agent_set _ _ Hs2)).
  pose proof (tabs_keep_session inp w2) as Hk. unfold same_session in Hk.
  now rewrite Hk.
Qed.

#[global] Instance session_sticks_preorder : PreOrder session_sticks.
Proof.
  split; unfold session_sticks.
  - intros w v H. exact H.
  - intros a b c Hab Hbc v H. eauto.
Qed.

Lemma script_session_sticks inp : keeps session_sticks (script inp).
Proof.
  intros w v Hs. unfold script.
  assert (Hk : keeps same_session secrets_setup)
    by (unfold secrets_setup; frame).
  specialize (Hk w). unfold same_session in Hk.
  unfold mbind, M_bind, bind.
  destruct (secrets_setup w) as [[[]|e] w1]; simpl in *.
  - apply main_keeps_set_session. congruence.
  - congruence.
Qed.

(** X17: the session's agent entry, once set, survives every later script
    run of the session: a session that stored the [None] of a failed
    construction keeps it, so its text tab stays without an agent. *)
Theorem session_agent_is_final (inps : list Inputs) (w : World)
    (v : option Agent) (Hset : session_agent w = Some v) :
  session_agent (run_all inps w) = Some v.
Proof.
  revert w Hset. induction inps as [|inp inps IH]; intros w Hset; simpl.
  - exact Hset.
  - apply IH. now apply (script_session_sticks inp w).
Qed.

Lemma session_agent_is_final_witness :
  session_agent
    (run_all [text_query "Photosynthesis"; no_input;
              upload_query (source JPEG 900 600)] poisoned_world)
  = Some None.
Proof.
  apply (session_agent_is_final
           [text_query "Photosynthesis"; no_input;
            upload_query (source JPEG 900 600)] poisoned_world None).
  reflexivity.
Defined.

(* ===================================================================== *)
(** ** Runs that a stop or a rerun request interrupts *)
(* ===================================================================== *)

Lemma bind_inv {A B} (m : M A) (k : A -> M B) w r w' :
  (m ≫= k) w = (r, w') ->
  (exists a w1, m w = (Ok a, w1) /\ k a w1 = (r, w')) \/
  (exists e, m w = (Raise e, w') /\ r = Raise e).
Proof.
  unfold mbind, M_bind, bind. destruct (m w) as [[a|e] w1]; intros H.
  - left. eauto.
  - right. injection H as <- <-. eauto.
Qed.

Lemma bind_ext {A B} (m m' : M A) (k k' : A -> M B) w :
  m w = m' w -> (forall a w1, k a w1 = k' a w1) ->
  (m ≫= k) w = (m' ≫= k') w.
Proof.
  intros Hm Hk. unfold mbind, M_bind, bind. rewrite Hm.
  destruct (m' w) as [[a|e] w1]; auto.
Qed.

Lemma try_except_ext {A} (body body' : M A) catches handler handler' w :
  body w = body' w -> (forall e w1, handler e w1 = handler' e w1) ->
  try_except body catches handler w = try_except body' catches handler' w.
Proof.
  intros Hb Hh. unfold try_except. rewrite Hb.
  destruct (body' w) as [[a|e] w1]; [reflexivity|].
  destruct (catches e); auto.
Qed.

Lemma cache_resource_ext f f' w :
  (forall w, f w = f' w) -> cache_resource f w = cache_resource f' w.
Proof. intros H. unfold cache_resource. now rewrite H. Qed.

(** *** Without a request the two translations agree *)

Section Calm.
Variable pending : World -> option request.
Hypothesis Hcalm : calm pending.

Lemma yield_point_calm w : Interrupted.yield_point pending w = (Ok tt, w).
Proof. unfold Interrupted.yield_point. now rewrite Hcalm. Qed.

Lemma st_title_calm body w :
  Interrupted.st_title pending body w = st_title body w.
Proof. unfold Interrupted.st_title. now erewrite bind_Ok by apply yield_point_calm. Qed.

Lemma st_write_calm body w :
  Interrupted.st_write pending body w = st_write body w.
Proof. unfold Interrupted.st_write. now erewrite bind_Ok by apply yield_point_calm. Qed.

Lemma st_error_calm body w :
  Interrupted.st_error pending body w = st_error body w.
Proof. unfold Interrupted.st_error. now erewrite bind_Ok by apply yield_point_calm. Qed.

Lemma st_warning_calm body w :
  Interrupted.st_warning pending body w = st_warning body w.
Proof. unfold Interrupted.st_warning. now erewrite bind_Ok by apply yield_point_calm. Qed.

Lemma st_markdown_calm body w :
  Interrupted.st_markdown pending body w = st_markdown body w.
Proof. unfold Interrupted.st_markdown. now erewrite bind_Ok by apply yield_point_calm. Qed.

Lemma st_image_calm image caption image_width w :
  Interrupted.st_image pending image caption image_width w
  = st_image image caption image_width w.
Proof. unfold Interrupted.st_image. now erewrite bind_Ok by apply yield_point_calm. Qed.

Lemma st_spinner_calm {A} text (body body' : M A) w :
  (forall w1, body w1 = body' w1) ->
  Interrupted.st_spinner pending text body w = st_spinner text body' w.
Proof.
  intros Hb. unfold Interrupted.st_spinner.
  erewrite bind_Ok by apply yield_point_calm.
  unfold st_spinner. apply bind_ext; [reflexivity|]. intros _ w1. apply Hb.
Qed.

Lemma error_pair_calm prefix e w :
  (Interrupted.st_error pending prefix;;
   Interrupted.st_error pending (format_exc e)) w
  = (st_error prefix;; st_error (format_exc e)) w.
Proof.
  apply bind_ext; [apply st_error_calm|]. intros _ w1. apply st_error_calm.
Qed.

Lemma secrets_setup_calm w : Interrupted.secrets_setup pending w = secrets_setup w.
Proof.
  unfold Interrupted.secrets_setup, secrets_setup.
  apply try_except_ext; [reflexivity|]. intros e w1.
  apply bind_ext; [apply st_error_calm|]. reflexivity.
Qed.

Lemma get_agent_body_calm w :
  Interrupted.get_agent_body pending w = get_agent_body w.
Proof.
  unfold Interrupted.get_agent_body, get_agent_body.
  apply try_except_ext; [reflexivity|]. intros e w1.
  apply bind_ext; [apply st_error_calm|]. intros _ w2.
  apply bind_ext; [apply st_error_calm|]. reflexivity.
Qed.

Lemma get_agent_calm w : Interrupted.get_agent pending w = get_agent w.
Proof.
  unfold Interrupted.get_agent, get_agent.
  apply cache_resource_ext, get_agent_body_calm.
Qed.

Lemma analyze_image_calm path w :
  Interrupted.analyze_image pending path w = analyze_image path w.
Proof.
  unfold Interrupted.analyze_image, analyze_image.
  apply bind_ext; [apply get_agent_calm|]. intros [agent|] w1; [|reflexivity].
  apply try_except_ext.
  - apply st_spinner_calm. intros w2.
    apply bind_ext; [reflexivity|]. intros response w3. apply st_markdown_calm.
  - intros e w2. apply error_pair_calm.
Qed.

Lemma tab1_calm inp w : Interrupted.tab1 pending inp w = tab1 inp w.
Proof.
  unfold Interrupted.tab1, tab1.
  destruct (get_answer inp); [|reflexivity].
  destruct (truthy (user_input inp)); [|apply st_warning_calm].
  apply try_except_ext.
  - apply st_spinner_calm. intros w2.
    apply bind_ext; [reflexivity|]. intros response w3. apply st_markdown_calm.
  - intros e w2. apply error_pair_calm.
Qed.

Lemma image_tab_calm file caption clicked w :
  Interrupted.image_tab pending file caption clicked w
  = image_tab file caption clicked w.
Proof.
  unfold Interrupted.image_tab, image_tab.
  destruct file as [data|]; [|reflexivity]. cbv zeta.
  apply bind_ext; [reflexivity|]. intros [resized fp] w1.
  apply bind_ext; [apply st_image_calm|]. intros _ w2.
  destruct clicked; [|reflexivity].
  apply bind_ext; [reflexivity|]. intros path w3.
  apply bind_ext; [apply analyze_image_calm|]. reflexivity.
Qed.

Lemma init_session_agent_calm w :
  Interrupted.init_session_agent pending w = init_session_agent w.
Proof.
  unfold Interrupted.init_session_agent, init_session_agent.
  apply bind_ext; [reflexivity|]. intros present w1.
  destruct (negb present); [|reflexivity].
  apply bind_ext; [apply get_agent_calm|]. reflexivity.
Qed.

Lemma main_calm inp w : Interrupted.main pending inp w = main inp w.
Proof.
  unfold Interrupted.main, main.
  apply bind_ext; [apply st_title_calm|]. intros _ w1.
  apply bind_ext; [apply st_write_calm|]. intros _ w2.
  apply bind_ext; [apply init_session_agent_calm|]. intros _ w3.
  apply bind_ext; [apply tab1_calm|]. intros _ w4.
  apply bind_ext; [apply image_tab_calm|]. intros _ w5.
  apply image_tab_calm.
Qed.

(** A script run during which no request arrives is a run of [script]. *)
Lemma Interrupted_script_calm inp w :
  Interrupted.script pending inp w = script inp w.
Proof.
  unfold Interrupted.script, script.
  apply bind_ext; [apply secrets_setup_calm|]. intros _ w1. apply main_calm.
Qed.

End Calm.

(** *** What an interrupted call keeps and lets out *)

Lemma not_Exception_is_control e : is_Exception e = false -> is_control e = true.
Proof. now destruct e. Qed.

Lemma raises_only_try_except_any {A} (P : exn -> Prop) (body : M A)
    catches handler :
  raises_only (fun e => catches e = false -> P e) body ->
  (forall e, raises_only P (handler e)) ->
  raises_only P (try_except body catches handler).
Proof.
  intros Hb Hh w e w'. unfold try_except.
  destruct (body w) as [[a|e1] w1] eqn:E; [discriminate|].
  destruct (catches e1) eqn:Hc; [apply Hh|].
  intros [= <- <-]. now apply (Hb _ _ _ E).
Qed.

Lemma raises_only_cache_resource (P : exn -> Prop) f :
  raises_only P f -> raises_only P (cache_resource f).
Proof.
  intros Hf w e w'. unfold cache_resource.
  destruct (resource_cache w); [discriminate|].
  destruct (f w) as [[v|e1] w1] eqn:E; [discriminate|].
  intros [= <- <-]. apply (Hf _ _ _ E).
Qed.

Lemma keeps_cache_resource (R : relation World) `{!PreOrder R} f :
  keeps R f -> (forall w v, R w (set_resource_cache (Some v) w)) ->
  keeps R (cache_resource f).
Proof.
  intros Hf Hset w. unfold cache_resource.
  destruct (resource_cache w); [reflexivity|].
  specialize (Hf w). destruct (f w) as [[v|e] w1]; simpl in *; [|exact Hf].
  etransitivity; [exact Hf|apply Hset].
Qed.

Section Interruptible.
Variable pending : World -> option request.

Lemma yield_point_keeps (R : relation World) `{!PreOrder R} :
  keeps R (Interrupted.yield_point pending).
Proof.
  intros w. unfold Interrupted.yield_point.
  destruct (pending w); reflexivity.
Qed.

Lemma yield_point_controlled : controlled (Interrupted.yield_point pending).
Proof.
  intros w e w'. unfold Interrupted.yield_point.
  destruct (pending w) as [[]|]; intros [= <- <-]; reflexivity.
Qed.

Lemma yield_then_log_controlled ev :
  controlled (Interrupted.yield_point pending;; log ev).
Proof.
  apply raises_only_bind; [apply yield_point_controlled|intros _].
  intros w e w'. discriminate.
Qed.

Lemma st_error_controlled body : controlled (Interrupted.st_error pending body).
Proof. apply yield_then_log_controlled. Qed.

Lemma st_markdown_controlled body :
  controlled (Interrupted.st_markdown pending body).
Proof. apply yield_then_log_controlled. Qed.

Lemma st_warning_controlled body :
  controlled (Interrupted.st_warning pending body).
Proof. apply yield_then_log_controlled. Qed.

Lemma error_pair_controlled prefix e :
  controlled (Interrupted.st_error pending prefix;;
              Interrupted.st_error pending (format_exc e)).
Proof.
  apply raises_only_bind; [apply st_error_controlled|intros _].
  apply st_error_controlled.
Qed.

(** A handler for [Exception] around a body leaves only control
    exceptions, whatever the body raises. *)
Lemma handled_controlled {A} (body : M A) handler :
  (forall e, controlled (handler e)) ->
  controlled (try_except body is_Exception handler).
Proof.
  intros Hh. apply raises_only_try_except_any; [|exact Hh].
  intros w e w' _. apply not_Exception_is_control.
Qed.

Lemma get_agent_controlled : controlled (Interrupted.get_agent pending).
Proof.
  apply raises_only_cache_resource, handled_controlled. intros e.
  apply raises_only_bind; [apply st_error_controlled|intros _].
  apply raises_only_bind; [apply st_error_controlled|intros _].
  apply raises_only_ret.
Qed.

Lemma analyze_image_controlled path :
  controlled (Interrupted.analyze_image pending path).
Proof.
  unfold Interrupted.analyze_image.
  apply raises_only_bind; [apply get_agent_controlled|intros [agent|]];
    [|apply raises_only_ret].
  apply handled_controlled. intros e. apply error_pair_controlled.
Qed.

Lemma tab1_controlled inp : controlled (Interrupted.tab1 pending inp).
Proof.
  unfold Interrupted.tab1.
  destruct (get_answer inp); [|apply raises_only_ret].
  destruct (truthy (user_input inp)); [|apply st_warning_controlled].
  apply handled_controlled. intros e. apply error_pair_controlled.
Qed.

End Interruptible.

Ltac interruptible :=
  unfold Interrupted.st_title, Interrupted.st_write, Interrupted.st_error,
    Interrupted.st_warning, Interrupted.st_markdown, Interrupted.st_image,
    Interrupted.st_spinner;
  repeat first
    [ match goal with
      | |- keeps ?R (Interrupted.yield_point _) => apply (yield_point_keeps _ R)
      | |- keeps ?R (Interrupted.get_agent _) =>
          apply (keeps_cache_resource R); [|intros ? ?; unfold_rel; now simpl]
      | |- keeps _ (Interrupted.get_agent_body _) =>
          unfold Interrupted.get_agent_body, Interrupted.st_error
      end
    | progress frame ].

Lemma Interrupted_analyze_image_no_image_work pending path :
  keeps no_image_work (Interrupted.analyze_image pending path).
Proof. unfold Interrupted.analyze_image. interruptible. Qed.

Lemma Interrupted_analyze_image_keeps_session pending path :
  keeps same_session (Interrupted.analyze_image pending path).
Proof. unfold Interrupted.analyze_image. interruptible. Qed.

Lemma Interrupted_tab1_no_image_work pending inp :
  keeps no_image_work (Interrupted.tab1 pending inp).
Proof. unfold Interrupted.tab1. interruptible. Qed.

Lemma Interrupted_tab1_keeps_session pending inp :
  keeps same_session (Interrupted.tab1 pending inp).
Proof. unfold Interrupted.tab1. interruptible. Qed.

Lemma st_image_cases pending image caption image_width w :
  Interrupted.st_image pending image caption image_width w
    = (Ok tt, emit (st_image_ev image caption image_width) w) \/
  exists rq,
    pending w = Some rq /\
    Interrupted.st_image pending image caption image_width w
    = (Raise (control_exception rq), w).
Proof.
  unfold Interrupted.st_image, Interrupted.yield_point, mbind, M_bind, bind.
  destruct (pending w) as [rq|]; [right; now exists rq|left; reflexivity].
Qed.

Lemma is_control_control_exception rq : is_control (control_exception rq) = true.
Proof. now destruct rq. Qed.

(** *** The temporary file of an interrupted request *)

(** C1, as the code has it: the [os.unlink] of lines 132 and 143 is an
    ordinary statement after [analyze_image], not a [finally].  For an
    image request whose preview was made, run with any requests arriving:
    if the tab returns, it has deleted the temporary file exactly once, as
    its last action, and the directory is as before; if the tab raises, it
    has deleted nothing, and after a script-control exception the file,
    when it was written already, is still there with the uploaded bytes.
    With no request arriving and a free name found, the tab returns; when
    the remote call of a cached agent raises, the error is drawn and the
    file is deleted. *)
Theorem temp_file_deleted_unless_interrupted
    (pending : World -> option request) (data : bytes) (caption : string)
    (w w' : World) (resized : bytes) (fp : BytesIO) (r : result unit)
    (Hresize : resize_image_for_display (BytesIO_new data) = Ok (resized, fp))
    (Hrun : Interrupted.image_tab pending (Some data) caption true w = (r, w')) :
  (r = Ok tt ->
     exists path,
       fs w !! path = None /\
       count is_os_unlink (trace w') = S (count is_os_unlink (trace w)) /\
       last (trace w') = Some (os_unlink_ev path) /\
       fs w' !! path = None /\
       fs w' = fs w) /\
  (forall e, r = Raise e ->
     count is_os_unlink (trace w') = count is_os_unlink (trace w) /\
     (is_control e = true ->
      fs w' = fs w \/
      exists path, fs w !! path = None /\ fs w' = <[path := data]> (fs w))) /\
  (calm pending ->
   forall path w1,
     save_uploaded_file fp (emit (st_image_ev resized caption MAX_IMAGE_WIDTH) w)
       = (Ok path, w1) ->
     r = Ok tt /\
     exists before,
       trace w' = trace w ++ before ++ [os_unlink_ev path] /\
       count is_os_unlink before = 0%nat /\
       (forall agent msg,
          resource_cache w = Some (Some agent) ->
          Agent_run_outcome w (remote_calls w) = Fail msg ->
          before =
            [st_image_ev resized caption MAX_IMAGE_WIDTH;
             st_spinner_ev "Analyzing image and generating content...";
             Agent_run_ev (image_call agent path (Some data));
             st_error_ev ("An error occurred during image analysis: " +:+ msg);
             st_error_ev (format_exc (Exception msg))])).
Proof.
  assert (Hcases :
    (r = Ok tt /\
     exists path,
       fs w !! path = None /\
       count is_os_unlink (trace w') = S (count is_os_unlink (trace w)) /\
       last (trace w') = Some (os_unlink_ev path) /\
       fs w' !! path = None /\
       fs w' = fs w) \/
    (exists e, r = Raise e /\
       count is_os_unlink (trace w') = count is_os_unlink (trace w) /\
       (e = FileExistsError /\ fs w' = fs w \/
        is_control e = true /\
        (fs w' = fs w \/
         exists path, fs w !! path = None /\ fs w' = <[path := data]> (fs w))))).
  { pose proof (resize_image_for_display_buffer _ _ _ Hresize) as Hbuf.
    simpl in Hbuf.
    pose proof Hrun as Hsteps.
    unfold Interrupted.image_tab in Hsteps. cbv zeta in Hsteps.
    erewrite bind_Ok in Hsteps by (unfold lift; rewrite Hresize; reflexivity).
    cbv beta iota in Hsteps.
    apply bind_inv in Hsteps as [([] & wi & Himg & Hsteps)|(e & Himg & ->)].
    2: { right. exists e. split; [reflexivity|].
         destruct (st_image_cases pending resized caption MAX_IMAGE_WIDTH w)
           as [Hi|(rq & _ & Hi)]; rewrite Hi in Himg; [discriminate|].
         injection Himg as <- <-. split; [reflexivity|]. right.
         split; [apply is_control_control_exception|now left]. }
    destruct (st_image_cases pending resized caption MAX_IMAGE_WIDTH w)
      as [Hi|(rq & _ & Hi)]; rewrite Hi in Himg; [|discriminate].
    injection Himg as <-.
    apply bind_inv in Hsteps as [(path & w1 & Hsave & Hsteps)|(e & Hsave & ->)].
    2: { right. exists e. split; [reflexivity|].
         destruct (save_uploaded_file_cases fp
                     (emit (st_image_ev resized caption MAX_IMAGE_WIDTH) w))
           as [(k & Hs)|(path & k & _ & Hs)]; rewrite Hs in Hsave;
           [|discriminate].
         injection Hsave as <- <-. simpl. rewrite count_snoc. simpl.
         split; [lia|]. left. now split. }
    apply save_uploaded_file_Ok in Hsave as (Hfree & _ & drawn & ->).
    unfold getbuffer in Hsteps. rewrite Hbuf in Hsteps. simpl in Hfree.
    match type of Hsteps with (_ ≫= _) ?w1 = _ =>
      pose proof (Interrupted_analyze_image_no_image_work pending path w1) as Hkeep;
      pose proof (analyze_image_controlled pending path w1) as Hctl
    end.
    apply bind_inv in Hsteps as [([] & w2 & Han & Hsteps)|(e & Han & ->)].
    2: { right. exists e. split; [reflexivity|].
         rewrite Han in Hkeep. destruct Hkeep as (Hfs & _ & _ & Hu).
         simpl in Hfs, Hu. rewrite count_snoc in Hu. simpl in Hu.
         split; [lia|]. right. split; [apply (Hctl _ _ Han)|].
         right. exists path. split; [exact Hfree|exact Hfs]. }
    rewrite Han in Hkeep. destruct Hkeep as (Hfs & _ & _ & Hu).
    simpl in Hfs, Hu. rewrite count_snoc in Hu. simpl in Hu.
    rewrite (os_unlink_existing path w2 data) in Hsteps
      by (rewrite Hfs; apply lookup_insert_eq).
    injection Hsteps as <- <-. left. split; [reflexivity|].
    exists path. split; [exact Hfree|]. simpl.
    split; [rewrite count_snoc; simpl; lia|].
    split; [apply last_snoc|].
    split; [apply lookup_delete_eq|].
    rewrite Hfs. now apply delete_insert_id. }
  split; [|split].
  - intros ->. destruct Hcases as [[_ H]|(e & [=] & _)]. exact H.
  - intros e ->. destruct Hcases as [[[=] _]|(e' & [= <-] & Hu & H)].
    split; [exact Hu|]. intros Hctl.
    destruct H as [[-> _]|[_ H]]; [discriminate|exact H].
  - intros Hcalm path w1 Hsave.
    rewrite (image_tab_calm pending Hcalm) in Hrun.
    destruct (image_tab_deletes_once _ _ _ _ _ _ _ Hresize Hsave)
      as (w'' & before & Htab & Htr & Hu & _ & _ & Hfail).
    rewrite Htab in Hrun. injection Hrun as <- <-.
    split; [reflexivity|]. exists before. now repeat split.
Qed.

Lemma temp_file_deleted_unless_interrupted_witness :
  (Ok tt = Ok tt ->
     exists path,
       fs ready_failing_world !! path = None /\
       count is_os_unlink (trace (snd uninterrupted_request))
         = S (count is_os_unlink (trace ready_failing_world)) /\
       last (trace (snd uninterrupted_request)) = Some (os_unlink_ev path) /\
       fs (snd uninterrupted_request) !! path = None /\
       fs (snd uninterrupted_request) = fs ready_failing_world) /\
  (forall e, Ok tt = Raise e ->
     count is_os_unlink (trace (snd uninterrupted_request))
       = count is_os_unlink (trace ready_failing_world) /\
     (is_control e = true ->
      fs (snd uninterrupted_request) = fs ready_failing_world \/
      exists path,
        fs ready_failing_world !! path = None /\
        fs (snd uninterrupted_request)
        = <[path := source JPEG 900 600]> (fs ready_failing_world))) /\
  (calm no_request ->
   forall path w1,
     save_uploaded_file (read_through (source JPEG 900 600))
       (emit (st_image_ev preview_900x600 "Uploaded Image" MAX_IMAGE_WIDTH)
          ready_failing_world)
       = (Ok path, w1) ->
     Ok tt = Ok tt /\
     exists before,
       trace (snd uninterrupted_request)
         = trace ready_failing_world ++ before ++ [os_unlink_ev path] /\
       count is_os_unlink before = 0%nat /\
       (forall agent msg,
          resource_cache ready_failing_world = Some (Some agent) ->
          Agent_run_outcome ready_failing_world
            (remote_calls ready_failing_world) = Fail msg ->
          before =
            [st_image_ev preview_900x600 "Uploaded Image" MAX_IMAGE_WIDTH;
             st_spinner_ev "Analyzing image and generating content...";
             Agent_run_ev
               (image_call agent path (Some (source JPEG 900 600)));
             st_error_ev ("An error occurred during image analysis: " +:+ msg);
             st_error_ev (format_exc (Exception msg))])).
Proof.
  apply (temp_file_deleted_unless_interrupted no_request
           (source JPEG 900 600) "Uploaded Image" ready_failing_world
           (snd uninterrupted_request) preview_900x600
           (read_through (source JPEG 900 600)) (Ok tt)).
  - vm_compute. reflexivity.
  - vm_compute. reflexivity.
Defined.

(** C1, as the specification states it, fails: a rerun is asked for while
    the remote call is under way.  Whether that call then raises (first
    three lines) or answers (last three), the next [st.*] call raises
    [RerunException], which [except Exception] lets through; [os.unlink]
    is not reached, and the temporary file stays in the directory with the
    uploaded bytes in it. *)
Lemma temp_file_left_behind_counterexample :
  fs ready_failing_world !! "tmp0.jpg" = None /\
  Agent_run_outcome ready_failing_world (remote_calls ready_failing_world)
    = Fail "quota exceeded" /\
  fst interrupted_failing_request = Raise RerunException /\
  count is_Agent_run (trace (snd interrupted_failing_request)) = 1%nat /\
  count is_os_unlink (trace (snd interrupted_failing_request)) = 0%nat /\
  fs (snd interrupted_failing_request) !! "tmp0.jpg"
    = Some (source JPEG 900 600) /\
  fst interrupted_request = Raise RerunException /\
  count is_os_unlink (trace (snd interrupted_request)) = 0%nat /\
  fs (snd interrupted_request) !! "tmp0.jpg" = Some (source JPEG 900 600).
Proof. repeat split; vm_compute; reflexivity. Qed.

(** *** The handlers of the script and the control exceptions *)

(** X16: [analyze_image] handles every [Exception] of the agent's
    construction and of the remote call inside: all it lets out is a
    script-control exception, raised in one of its [st.*] calls by a stop
    or a rerun request; with no request arriving it returns.  Either way
    it creates and deletes no file and leaves the session's agent alone. *)
Theorem analyze_image_lets_out_control_only
    (pending : World -> option request) (path : string) (w : World) :
  exists r w',
    Interrupted.analyze_image pending path w = (r, w') /\
    (r = Ok tt \/
     exists e, r = Raise e /\ is_Exception e = false /\ is_control e = true) /\
    (calm pending -> r = Ok tt) /\
    fs w' = fs w /\
    names_drawn w' = names_drawn w /\
    count is_os_unlink (trace w') = count is_os_unlink (trace w) /\
    session_agent w' = session_agent w.
Proof.
  pose proof (Interrupted_analyze_image_no_image_work pending path w) as Hk.
  pose proof (Interrupted_analyze_image_keeps_session pending path w) as Hs.
  pose proof (analyze_image_controlled pending path w) as Hc.
  destruct (Interrupted.analyze_image pending path w) as [r w'] eqn:E.
  destruct Hk as (Hfs & Hn & _ & Hu). simpl in *.
  exists r, w'. split; [reflexivity|].
  split.
  { destruct r as [[]|e]; [now left|right].
    exists e. split; [reflexivity|].
    pose proof (Hc _ _ eq_refl) as He. split; [now destruct e|exact He]. }
  split.
  { intros Hcalm. rewrite (analyze_image_calm pending Hcalm) in E.
    rewrite (never_raises_Ok _ w (analyze_image_never_raises path)) in E.
    now injection E as <- _. }
  now repeat split.
Qed.

(** X6: the text tab handles every [Exception] of the remote call and of
    a missing agent inside: all it lets out is a script-control exception,
    raised in one of its [st.*] calls by a stop or a rerun request; with no
    request arriving it returns.  Either way it creates and deletes no
    file, draws no preview and leaves the session's agent alone. *)
Theorem tab1_lets_out_control_only
    (pending : World -> option request) (inp : Inputs) (w : World) :
  exists r w',
    Interrupted.tab1 pending inp w = (r, w') /\
    (r = Ok tt \/
     exists e, r = Raise e /\ is_Exception e = false /\ is_control e = true) /\
    (calm pending -> r = Ok tt) /\
    fs w' = fs w /\
    names_drawn w' = names_drawn w /\
    count is_st_image (trace w') = count is_st_image (trace w) /\
    count is_os_unlink (trace w') = count is_os_unlink (trace w) /\
    session_agent w' = session_agent w.
Proof.
  pose proof (Interrupted_tab1_no_image_work pending inp w) as Hk.
  pose proof (Interrupted_tab1_keeps_session pending inp w) as Hs.
  pose proof (tab1_controlled pending inp w) as Hc.
  destruct (Interrupted.tab1 pending inp w) as [r w'] eqn:E.
  destruct Hk as (Hfs & Hn & Hi & Hu). simpl in *.
  exists r, w'. split; [reflexivity|].
  split.
  { destruct r as [[]|e]; [now left|right].
    exists e. split; [reflexivity|].
    pose proof (Hc _ _ eq_refl) as He. split; [now destruct e|exact He]. }
  split.
  { intros Hcalm. rewrite (tab1_calm pending Hcalm) in E.
    rewrite (never_raises_Ok _ w (tab1_never_raises inp)) in E.
    now injection E as <- _. }
  now repeat split.
Qed.

(** A text query that a rerun interrupts: the remote call is made, the
    answer is not drawn, and [RerunException] leaves the tab although the
    call sits in [try ... except Exception]. *)
Lemma tab1_interrupted_example :
  fst (Interrupted.tab1 rerun_during_call (text_query "Photosynthesis")
         ready_world) = Raise RerunException /\
  count is_Agent_run
    (trace (snd (Interrupted.tab1 rerun_during_call
                   (text_query "Photosynthesis") ready_world))) = 1%nat /\
  fst (tab1 (text_query "Photosynthesis") ready_world) = Ok tt.
Proof. repeat split; vm_compute; reflexivity. Qed.
